(** * job_search.py: credential store, search orchestration and CLI dispatch

    A shallow embedding of [job_search.py].  Python strings are lists of
    Unicode code points, the standard [json] module is modelled at the level
    of the text it writes and reads, and the effects of the program (the
    configuration file, standard input and output, the remote chat call) are
    threaded through an explicit world state.

    The environment is the interpreter's default on a UTF-8 locale.  What
    the model leaves out is said where it is left out: access rights and a
    missing home directory in the store, the limits of the interpreter in
    the decoder, the frames of its stack in the search-again loop, and
    interrupts from the keyboard. *)

From Stdlib Require Import ZArith List String Ascii Bool Lia.
Import ListNotations.
Set Warnings "-register-all".
Open Scope Z_scope.

(* ================================================================== *)
(** ** Python strings *)

Module Text.

(** A [str] is a sequence of code points; every code point of
    [0 .. 0x10FFFF] can occur, the surrogates [0xD800 .. 0xDFFF] included. *)
Definition pystr := list Z.

Definition valid_codepoint (c : Z) : Prop := 0 <= c <= 0x10FFFF.

Definition well_formed (s : pystr) : Prop := Forall valid_codepoint s.

(** An ASCII literal of the source. *)
Definition lit (s : string) : pystr :=
  map (fun a => Z.of_N (N_of_ascii a)) (list_ascii_of_string s).

Fixpoint str_eqb (a b : pystr) : bool :=
  match a, b with
  | [], [] => true
  | x :: a', y :: b' => (x =? y) && str_eqb a' b'
  | _, _ => false
  end.

(** [sep.join(items)] *)
Fixpoint join (sep : pystr) (items : list pystr) : pystr :=
  match items with
  | [] => []
  | x :: rest =>
      match rest with
      | [] => x
      | _ :: _ => x ++ sep ++ join sep rest
      end
  end.

(** [s.startswith(p)], returning the remainder of [s] *)
Fixpoint strip_prefix (p s : pystr) : option pystr :=
  match p, s with
  | [], _ => Some s
  | x :: p', y :: s' => if x =? y then strip_prefix p' s' else None
  | _ :: _, [] => None
  end.

(** [needle in haystack] as a proposition *)
Definition substring (needle haystack : pystr) : Prop :=
  exists pre post, haystack = pre ++ needle ++ post.

(** [str.isspace] on one code point: the characters whose bidirectional
    class is WS, B or S, or whose category is Zs. *)
Definition isspace (c : Z) : bool :=
  ((9 <=? c) && (c <=? 13)) || ((28 <=? c) && (c <=? 32))
  || (c =? 0x85) || (c =? 0xA0) || (c =? 0x1680)
  || ((0x2000 <=? c) && (c <=? 0x200A))
  || (c =? 0x2028) || (c =? 0x2029) || (c =? 0x202F) || (c =? 0x205F)
  || (c =? 0x3000).

Fixpoint lstrip (s : pystr) : pystr :=
  match s with
  | [] => []
  | c :: r => if isspace c then lstrip r else s
  end.

Definition rstrip (s : pystr) : pystr := rev (lstrip (rev s)).

(** [s.strip()] *)
Definition strip (s : pystr) : pystr := rstrip (lstrip s).

Definition isascii (s : pystr) : bool := forallb (fun c => (0 <=? c) && (c <? 128)) s.

Definition ascii_lower (c : Z) : Z :=
  if (65 <=? c) && (c <=? 90) then c + 32 else c.

End Text.

Import Text.

(* ================================================================== *)
(** ** The [json] module *)

Module Json.

(** Python values as far as [json.load] produces them.  A float is kept as
    the lexeme it was read from: its binary value is never inspected except
    for truthiness. *)
Inductive value :=
  | PyNone
  | PyBool (b : bool)
  | PyInt (n : Z)
  | PyFloat (lexeme : pystr)
  | PyStr (s : pystr)
  | PyList (items : list value)
  | PyDict (pairs : list (pystr * value)).

(** [d.get(key)] on the pairs a dict was built from: [dict(pairs)] lets a
    later pair override an earlier one with the same key. *)
Fixpoint dict_get (pairs : list (pystr * value)) (key : pystr) : option value :=
  match pairs with
  | [] => None
  | (k, v) :: rest =>
      match dict_get rest key with
      | Some v' => Some v'
      | None => if str_eqb k key then Some v else None
      end
  end.

(** *** Encoder ([ensure_ascii=True], the default) *)

Definition hexdigit (d : Z) : Z := if d <? 10 then 48 + d else 87 + d.

(** ['{0:04x}'.format(n)] for [0 <= n < 0x10000] *)
Definition format_04x (n : Z) : pystr :=
  [hexdigit (n / 4096 mod 16); hexdigit (n / 256 mod 16);
   hexdigit (n / 16 mod 16); hexdigit (n mod 16)].

(** The replacement of one character in [encode_basestring_ascii]: the
    double quote, the backslash and everything outside the printable ASCII
    range (space to tilde) are escaped. *)
Definition escape_char (c : Z) : pystr :=
  if c =? 34 then [92; 34]
  else if c =? 92 then [92; 92]
  else if c =? 10 then [92; 110]
  else if c =? 13 then [92; 114]
  else if c =? 9 then [92; 116]
  else if c =? 8 then [92; 98]
  else if c =? 12 then [92; 102]
  else if (32 <=? c) && (c <=? 126) then [c]
  else if c <? 0x10000 then 92 :: 117 :: format_04x c
  else
    let n := c - 0x10000 in
    let s1 := Z.lor 0xd800 (Z.land (Z.shiftr n 10) 0x3ff) in
    let s2 := Z.lor 0xdc00 (Z.land n 0x3ff) in
    (92 :: 117 :: format_04x s1) ++ (92 :: 117 :: format_04x s2).

Definition encode_basestring_ascii (s : pystr) : pystr :=
  [34] ++ flat_map escape_char s ++ [34].

(** [json.dumps] on a flat dict of strings, the only kind of object the
    program serialises, with the default separators (comma and colon, each
    followed by a space). *)
Definition dumps (config : list (pystr * pystr)) : pystr :=
  lit "{"
  ++ join (lit ", ")
       (map (fun kv => encode_basestring_ascii (fst kv) ++ lit ": "
                       ++ encode_basestring_ascii (snd kv)) config)
  ++ lit "}".

(** *** Decoder *)

Definition is_ws (c : Z) : bool :=
  (c =? 32) || (c =? 9) || (c =? 10) || (c =? 13).

Fixpoint skip_ws (s : pystr) : pystr :=
  match s with
  | [] => []
  | c :: r => if is_ws c then skip_ws r else s
  end.

Definition hexval (c : Z) : option Z :=
  if (48 <=? c) && (c <=? 57) then Some (c - 48)
  else if (97 <=? c) && (c <=? 102) then Some (c - 87)
  else if (65 <=? c) && (c <=? 70) then Some (c - 55)
  else None.

(** Four hexadecimal digits after [\u] *)
Definition decode_uXXXX (s : pystr) : option (Z * pystr) :=
  match s with
  | a :: b :: c :: d :: rest =>
      match hexval a, hexval b, hexval c, hexval d with
      | Some x, Some y, Some z, Some w =>
          Some (((x * 16 + y) * 16 + z) * 16 + w, rest)
      | _, _, _, _ => None
      end
  | _ => None
  end.

(** The table [BACKSLASH] of one-letter escapes *)
Definition backslash (esc : Z) : option Z :=
  if esc =? 34 then Some 34
  else if esc =? 92 then Some 92
  else if esc =? 47 then Some 47
  else if esc =? 98 then Some 8
  else if esc =? 102 then Some 12
  else if esc =? 110 then Some 10
  else if esc =? 114 then Some 13
  else if esc =? 116 then Some 9
  else None.

Definition is_high_surrogate (c : Z) : bool := (0xd800 <=? c) && (c <=? 0xdbff).
Definition is_low_surrogate (c : Z) : bool := (0xdc00 <=? c) && (c <=? 0xdfff).

(** [scanstring] in strict mode, started after the opening quote; [acc]
    holds the characters read so far, last one first.  Every step consumes
    input, so a budget of one more than the length of the input is never
    exhausted. *)
Fixpoint scanstring_aux (fuel : nat) (s : pystr) (acc : pystr)
  : option (pystr * pystr) :=
  match fuel with
  | O => None
  | S fuel' =>
      match s with
      | [] => None
      | c :: r =>
          if c =? 34 then Some (rev acc, r)
          else if c =? 92 then
            match r with
            | [] => None
            | esc :: r1 =>
                if esc =? 117 then
                  match decode_uXXXX r1 with
                  | None => None
                  | Some (uni, r2) =>
                      if is_high_surrogate uni then
                        match strip_prefix [92; 117] r2 with
                        | Some r3 =>
                            match decode_uXXXX r3 with
                            | None => None
                            | Some (uni2, r4) =>
                                if is_low_surrogate uni2 then
                                  scanstring_aux fuel' r4
                                    (0x10000
                                     + Z.lor (Z.shiftl (uni - 0xd800) 10)
                                             (uni2 - 0xdc00) :: acc)
                                else scanstring_aux fuel' r2 (uni :: acc)
                            end
                        | None => scanstring_aux fuel' r2 (uni :: acc)
                        end
                      else scanstring_aux fuel' r2 (uni :: acc)
                  end
                else
                  match backslash esc with
                  | Some ch => scanstring_aux fuel' r1 (ch :: acc)
                  | None => None
                  end
            end
          else if c <? 32 then None
          else scanstring_aux fuel' r (c :: acc)
      end
  end.

Definition scanstring (s : pystr) : option (pystr * pystr) :=
  scanstring_aux (S (List.length s)) s [].

Definition is_digit (c : Z) : bool := (48 <=? c) && (c <=? 57).

Fixpoint span_digits (s : pystr) : pystr * pystr :=
  match s with
  | [] => ([], [])
  | c :: r =>
      if is_digit c then let (d, r') := span_digits r in (c :: d, r')
      else ([], s)
  end.

(** [int(digits)] for a run of decimal digits *)
Definition int_of_digits (d : pystr) : Z :=
  fold_left (fun n c => 10 * n + (c - 48)) d 0.

(** The optional fraction and exponent groups of [NUMBER_RE]: a dot and at
    least one digit; [e] or [E], an optional sign and at least one digit.
    Each returns the text it matched and the remainder. *)
Definition match_frac (s : pystr) : pystr * pystr :=
  match strip_prefix [46] s with
  | Some r =>
      match span_digits r with
      | ([], _) => ([], s)
      | (d, r') => (46 :: d, r')
      end
  | None => ([], s)
  end.

Definition match_exp (s : pystr) : pystr * pystr :=
  match s with
  | e :: r =>
      if (e =? 101) || (e =? 69) then
        let (sign, r0) :=
          match r with
          | sg :: r' => if (sg =? 45) || (sg =? 43) then ([sg], r') else ([], r)
          | [] => ([], r)
          end in
        match span_digits r0 with
        | ([], _) => ([], s)
        | (d, r') => (e :: sign ++ d, r')
        end
      else ([], s)
  | [] => ([], s)
  end.

(** The integer group of [NUMBER_RE]: an optional minus sign, then a single
    zero or a non-zero digit followed by any digits. *)
Definition match_integer (s : pystr) : option (bool * pystr * pystr) :=
  let (neg, s1) :=
    match strip_prefix [45] s with
    | Some r => (true, r)
    | None => (false, s)
    end in
  match s1 with
  | c :: r =>
      if c =? 48 then Some (neg, [48], r)
      else if is_digit c then
        let (d, r') := span_digits r in Some (neg, c :: d, r')
      else None
  | [] => None
  end.

Definition match_number (s : pystr) : option (value * pystr) :=
  match match_integer s with
  | None => None
  | Some (neg, digits, r) =>
      let (frac, r1) := match_frac r in
      let (exp, r2) := match_exp r1 in
      let sign := if neg : bool then [45] else [] in
      match frac, exp with
      | [], [] =>
          Some (PyInt (if neg then - int_of_digits digits else int_of_digits digits), r2)
      | _, _ => Some (PyFloat (sign ++ digits ++ frac ++ exp), r2)
      end
  end.

Definition match_constant (s : pystr) : option (value * pystr) :=
  match strip_prefix (lit "NaN") s with
  | Some r => Some (PyFloat (lit "NaN"), r)
  | None =>
  match strip_prefix (lit "Infinity") s with
  | Some r => Some (PyFloat (lit "Infinity"), r)
  | None =>
  match strip_prefix (lit "-Infinity") s with
  | Some r => Some (PyFloat (lit "-Infinity"), r)
  | None => None
  end end end.

(** [scan_once] with the object and array loops it calls.  [scan_members]
    starts after the opening quote of a key, [scan_items] at a value.  The
    budget bounds the nesting; one unit per character of the document is
    never exhausted. *)
Fixpoint scan_once (fuel : nat) (s : pystr) {struct fuel}
  : option (value * pystr) :=
  match fuel with
  | O => None
  | S fuel' =>
      match s with
      | [] => None
      | c :: r =>
          if c =? 34 then
            match scanstring r with
            | Some (str, r') => Some (PyStr str, r')
            | None => None
            end
          else if c =? 123 then
            match skip_ws r with
            | [] => None
            | c' :: r' =>
                if c' =? 125 then Some (PyDict [], r')
                else if c' =? 34 then scan_members fuel' r' []
                else None
            end
          else if c =? 91 then
            match strip_prefix [93] (skip_ws r) with
            | Some r' => Some (PyList [], r')
            | None => scan_items fuel' (skip_ws r) []
            end
          else
            match strip_prefix (lit "null") s with
            | Some r' => Some (PyNone, r')
            | None =>
            match strip_prefix (lit "true") s with
            | Some r' => Some (PyBool true, r')
            | None =>
            match strip_prefix (lit "false") s with
            | Some r' => Some (PyBool false, r')
            | None =>
            match match_number s with
            | Some res => Some res
            | None => match_constant s
            end end end end
      end
  end

with scan_members (fuel : nat) (s : pystr) (acc : list (pystr * value))
  {struct fuel} : option (value * pystr) :=
  match fuel with
  | O => None
  | S fuel' =>
      match scanstring s with
      | None => None
      | Some (key, r) =>
          match strip_prefix [58] (skip_ws r) with
          | None => None
          | Some r1 =>
              match scan_once fuel' (skip_ws r1) with
              | None => None
              | Some (v, r2) =>
                  match skip_ws r2 with
                  | [] => None
                  | c :: r3 =>
                      if c =? 125 then Some (PyDict (rev ((key, v) :: acc)), r3)
                      else if c =? 44 then
                        match strip_prefix [34] (skip_ws r3) with
                        | Some r4 => scan_members fuel' r4 ((key, v) :: acc)
                        | None => None
                        end
                      else None
                  end
              end
          end
      end
  end

with scan_items (fuel : nat) (s : pystr) (acc : list value)
  {struct fuel} : option (value * pystr) :=
  match fuel with
  | O => None
  | S fuel' =>
      match scan_once fuel' s with
      | None => None
      | Some (v, r) =>
          match skip_ws r with
          | [] => None
          | c :: r1 =>
              if c =? 93 then Some (PyList (rev (v :: acc)), r1)
              else if c =? 44 then scan_items fuel' (skip_ws r1) (v :: acc)
              else None
          end
      end
  end.

(** [json.loads]: a leading byte-order mark is refused, the document is one
    value between optional whitespace.  [None] stands for [JSONDecodeError].
    The limits of the interpreter (4300 digits for an integer literal, the
    recursion limit for nested arrays and objects) are not followed: this
    function reads a document beyond them, where [json.load] raises and
    [load_api_key] returns [None]. *)
Definition loads (s : pystr) : option value :=
  match strip_prefix [0xFEFF] s with
  | Some _ => None
  | None =>
      match scan_once (S (List.length s)) (skip_ws s) with
      | Some (v, r) =>
          match skip_ws r with
          | [] => Some v
          | _ :: _ => None
          end
      | None => None
      end
  end.

(** What the decoder reads back from an escaped string: a high surrogate
    directly followed by a low surrogate comes back as the one code point
    the pair stands for in UTF-16. *)
Fixpoint join_surrogates (s : pystr) : pystr :=
  match s with
  | [] => []
  | hi :: rest =>
      match rest with
      | [] => [hi]
      | lo :: rest' =>
          if is_high_surrogate hi && is_low_surrogate lo then
            (0x10000 + Z.lor (Z.shiftl (hi - 0xd800) 10) (lo - 0xdc00))
            :: join_surrogates rest'
          else hi :: join_surrogates rest
      end
  end.

(** No high surrogate is directly followed by a low surrogate. *)
Fixpoint no_surrogate_pair (s : pystr) : bool :=
  match s with
  | [] => true
  | hi :: rest =>
      match rest with
      | [] => true
      | lo :: _ =>
          negb (is_high_surrogate hi && is_low_surrogate lo)
          && no_surrogate_pair rest
      end
  end.

End Json.

Import Json.


(* ================================================================== *)
(** ** The world of the program *)

(** What a regular file holds, as [open(..., "r")] sees it: text in the
    locale's encoding, or bytes that do not decode. *)
Inductive FileData :=
  | TextData (s : pystr)
  | Undecodable.

(** What is found at the path [CONFIG_FILE]. *)
Inductive Node :=
  | Missing
  | RegularFile (data : FileData)
  | Directory.

(** What is found at the path [CONFIG_DIR].  The home directory exists;
    access rights are not modelled. *)
Inductive ConfigDir :=
  | DirMissing
  | DirNotADirectory
  | DirPresent (config_file : Node).

(** The segments of a response, tagged as the client library tags them;
    only a text segment carries something the program reads. *)
Inductive ContentBlock :=
  | TextBlock (text : pystr)
  | ThinkingBlock
  | RedactedThinkingBlock
  | ToolUseBlock
  | ServerToolUseBlock
  | WebSearchToolResultBlock.

Definition block_type (b : ContentBlock) : pystr :=
  match b with
  | TextBlock _ => lit "text"
  | ThinkingBlock => lit "thinking"
  | RedactedThinkingBlock => lit "redacted_thinking"
  | ToolUseBlock => lit "tool_use"
  | ServerToolUseBlock => lit "server_tool_use"
  | WebSearchToolResultBlock => lit "web_search_tool_result"
  end.

Record Tool := { tool_type : pystr; tool_name : pystr }.

Record Message := { role : pystr; content : pystr }.

(** The keyword arguments of [client.messages.create]. *)
Record Request := {
  model : pystr;
  max_tokens : Z;
  tools : list Tool;
  messages : list Message
}.

(** How building the client and calling [messages.create] can end: the
    client library reports a failure by raising an instance of [Exception].
    [RaisesAuthenticationError] is an instance of
    [anthropic.AuthenticationError], [RaisesException] any other instance of
    [Exception]; [msg] is [str(e)].  An interrupt from the keyboard is
    outside the model, here as in the rest of the program. *)
Inductive Outcome :=
  | Returns (blocks : list ContentBlock)
  | RaisesAuthenticationError (msg : pystr)
  | RaisesException (msg : pystr).

(** Exceptions that leave a function of the program. *)
Inductive Exn :=
  | SystemExit (code : Z)
  | EOFError
  | FileExistsError
  | FileNotFoundError
  | NotADirectoryError
  | IsADirectoryError
  | UnicodeDecodeError
  | JSONDecodeError
  | AttributeError
  | UnicodeEncodeError
  | RecursionError.

(** What the program does to its environment, in order. *)
Inductive Event :=
  | Output (s : pystr)
  | Input (prompt : pystr)
  | StoreExists
  | StoreMkdir
  | StoreRead
  | StoreWrite
  | StoreUnlink
  | RemoteCall (api_key : value) (req : Request).

Record World := {
  argv : list pystr;
  config_dir : ConfigDir;
  stdin : list pystr;
  events : list Event
}.

Inductive Res (A : Type) :=
  | Ret (a : A) (w : World)
  | Raise (e : Exn) (w : World).

Arguments Ret {A} a w.
Arguments Raise {A} e w.

(** The exit status of the interpreter: 0 after a normal return, the code
    of [sys.exit], 1 after a traceback. *)
Definition exit_status {A} (r : Res A) : Z :=
  match r with
  | Ret _ _ => 0
  | Raise (SystemExit code) _ => code
  | Raise _ _ => 1
  end.

Definition final_world {A} (r : Res A) : World :=
  match r with
  | Ret _ w => w
  | Raise _ w => w
  end.

Definition M (A : Type) : Type := World -> Res A.

Definition ret {A} (a : A) : M A := fun w => Ret a w.

Definition raise {A} (e : Exn) : M A := fun w => Raise e w.

Definition bind {A B} (c : M A) (k : A -> M B) : M B :=
  fun w =>
    match c w with
    | Ret a w' => k a w'
    | Raise e w' => Raise e w'
    end.

Notation "x <- c1 ;; c2" := (bind c1 (fun x => c2))
  (at level 61, c1 at next level, right associativity).
Notation "c1 ;; c2" := (bind c1 (fun _ => c2))
  (at level 61, right associativity).

(** [try: body / except: handler] with a bare [except] *)
Definition try_except {A} (body handler : M A) : M A :=
  fun w =>
    match body w with
    | Ret a w' => Ret a w'
    | Raise _ w' => handler w'
    end.

Definition record (e : Event) (w : World) : World :=
  {| argv := argv w; config_dir := config_dir w; stdin := stdin w;
     events := events w ++ [e] |}.

Definition set_config_dir (d : ConfigDir) (w : World) : World :=
  {| argv := argv w; config_dir := d; stdin := stdin w; events := events w |}.

(** Standard output is the interpreter's default on a UTF-8 locale: it
    encodes with UTF-8 and the error handler [strict], and so refuses
    exactly the texts that hold a surrogate code point. *)
Definition is_surrogate (c : Z) : bool := (0xD800 <=? c) && (c <=? 0xDFFF).

Definition encodable (s : pystr) : bool :=
  forallb (fun c => negb (is_surrogate c)) s.

(** [print(s)] for a text that standard output accepts.  The texts the
    program prints are its literals, alone or with text that [input]
    returned (standard input decodes with the handler standard output
    encodes with, so that what was read can be written) or that the service
    sent (taken to be well-formed text); the one text with a command-line
    argument goes through [print_argument]. *)
Definition print (s : pystr) : M unit := fun w => Ret tt (record (Output s) w).

(** [print(s)] for a text that holds a command-line argument.  The
    interpreter decodes the command line with the handler
    [surrogateescape], so that an argument holds a lone surrogate
    (U+DC80..U+DCFF) for each byte that is not UTF-8; standard output
    refuses such a text with [UnicodeEncodeError] before it writes any of
    it. *)
Definition print_argument (s : pystr) : M unit :=
  fun w => if encodable s then print s w else Raise UnicodeEncodeError w.

(** [input(prompt)]: the next line of standard input without its newline,
    [EOFError] at the end of input. *)
Definition input (prompt : pystr) : M pystr :=
  fun w =>
    match stdin w with
    | [] => Raise EOFError (record (Input prompt) w)
    | line :: rest =>
        Ret line
          {| argv := argv w; config_dir := config_dir w; stdin := rest;
             events := events w ++ [Input prompt] |}
    end.

Definition sys_exit {A} (code : Z) : M A := raise (SystemExit code).

Definition sys_argv : M (list pystr) := fun w => Ret (argv w) w.

(** [CONFIG_FILE.exists()].  It returns in every state of the model;
    [pathlib] lets through what [stat] raises on a path that may not be
    searched ([PermissionError]), a state the model does not have. *)
Definition CONFIG_FILE_exists : M bool :=
  fun w =>
    Ret match config_dir w with
        | DirPresent (RegularFile _) | DirPresent Directory => true
        | _ => false
        end (record StoreExists w).

(** [CONFIG_DIR.mkdir(exist_ok=True)]; the parent, the home directory,
    exists and may be written. *)
Definition CONFIG_DIR_mkdir : M unit :=
  fun w =>
    let w' := record StoreMkdir w in
    match config_dir w with
    | DirMissing => Ret tt (set_config_dir (DirPresent Missing) w')
    | DirNotADirectory => Raise FileExistsError w'
    | DirPresent _ => Ret tt w'
    end.

(** [with open(CONFIG_FILE, "w") as f: f.write(text)] for ASCII [text] *)
Definition CONFIG_FILE_write (text : pystr) : M unit :=
  fun w =>
    let w' := record StoreWrite w in
    match config_dir w with
    | DirMissing => Raise FileNotFoundError w'
    | DirNotADirectory => Raise NotADirectoryError w'
    | DirPresent Directory => Raise IsADirectoryError w'
    | DirPresent _ =>
        Ret tt (set_config_dir (DirPresent (RegularFile (TextData text))) w')
    end.

(** [with open(CONFIG_FILE, "r") as f: f.read()] *)
Definition CONFIG_FILE_read : M pystr :=
  fun w =>
    let w' := record StoreRead w in
    match config_dir w with
    | DirMissing | DirPresent Missing => Raise FileNotFoundError w'
    | DirNotADirectory => Raise NotADirectoryError w'
    | DirPresent Directory => Raise IsADirectoryError w'
    | DirPresent (RegularFile Undecodable) => Raise UnicodeDecodeError w'
    | DirPresent (RegularFile (TextData s)) => Ret s w'
    end.

(** [CONFIG_FILE.unlink()] *)
Definition CONFIG_FILE_unlink : M unit :=
  fun w =>
    let w' := record StoreUnlink w in
    match config_dir w with
    | DirMissing | DirPresent Missing => Raise FileNotFoundError w'
    | DirNotADirectory => Raise NotADirectoryError w'
    | DirPresent Directory => Raise IsADirectoryError w'
    | DirPresent (RegularFile _) => Ret tt (set_config_dir (DirPresent Missing) w')
    end.

(** [json.dump(config, f)] into the freshly opened configuration file *)
Definition json_dump (config : list (pystr * pystr)) : M unit :=
  CONFIG_FILE_write (dumps config).

(** [json.load(f)] on the configuration file *)
Definition json_load : M value :=
  text <- CONFIG_FILE_read ;;
  match loads text with
  | Some v => ret v
  | None => raise JSONDecodeError
  end.

(** [config.get(key)]: only a dict has the method. *)
Definition value_get (config : value) (key : pystr) : M value :=
  match config with
  | PyDict pairs =>
      ret match dict_get pairs key with
          | Some v => v
          | None => PyNone
          end
  | _ => raise AttributeError
  end.

Definition nonempty (s : pystr) : bool :=
  match s with
  | [] => false
  | _ :: _ => true
  end.

(* ================================================================== *)
(** ** The program *)

Definition ensure_config_dir : M unit := CONFIG_DIR_mkdir.

Definition saved_notice : pystr := 0x2713 :: lit " API key saved successfully!".

Definition removed_notice : pystr := 0x2713 :: lit " API key removed successfully!".

Definition nothing_to_remove_notice : pystr := lit "No API key found to remove.".

Definition save_api_key (api_key : pystr) : M unit :=
  ensure_config_dir ;;
  let config := [(lit "api_key", api_key)] in
  json_dump config ;;
  print saved_notice.

Definition load_api_key : M value :=
  found <- CONFIG_FILE_exists ;;
  if negb found then ret PyNone
  else
    try_except
      (config <- json_load ;;
       value_get config (lit "api_key"))
      (ret PyNone).

Definition remove_api_key : M unit :=
  found <- CONFIG_FILE_exists ;;
  if found then
    CONFIG_FILE_unlink ;;
    print removed_notice
  else
    print nothing_to_remove_notice.

Definition separator : pystr := repeat 61 80.

Definition search_prompt (keywords location : pystr) : pystr :=
  lit "Search for current job openings for '" ++ keywords
  ++ lit "' in or near '" ++ location ++ lit "'. " ++ [10]
  ++ lit "                    " ++ [10]
  ++ lit "Please find recent job listings and provide:" ++ [10]
  ++ lit "1. Job title and company name" ++ [10]
  ++ lit "2. Location" ++ [10]
  ++ lit "3. Brief description or key requirements" ++ [10]
  ++ lit "4. Link to apply (if available)" ++ [10]
  ++ [10]
  ++ lit "Format the results in a clear, easy-to-read way. Focus on the most relevant and recent postings.".

Definition search_request (keywords location : pystr) : Request :=
  {| model := lit "claude-sonnet-4-20250514";
     max_tokens := 4000;
     tools := [ {| tool_type := lit "web_search_20250305";
                   tool_name := lit "web_search" |} ];
     messages := [ {| role := lit "user";
                      content := search_prompt keywords location |} ] |}.

Definition searching_notice (keywords location : pystr) : pystr :=
  [10; 0x1F50D] ++ lit " Searching for '" ++ keywords
  ++ lit "' jobs near " ++ location ++ lit "..." ++ [10].

Definition no_results_notice : pystr :=
  lit "No results found. Try different keywords or location.".

Definition invalid_key_message : pystr :=
  [10; 0x274C]
  ++ lit " Error: Invalid API key. Please check your API key and try again.".

Definition reset_hint : pystr :=
  lit "You can reset your API key with: python job_search.py --reset-key".

(** The loop over [message.content] *)
Fixpoint collect_text (blocks : list ContentBlock) (full_response : list pystr)
  : list pystr :=
  match blocks with
  | [] => full_response
  | block :: rest =>
      if str_eqb (block_type block) (lit "text") then
        match block with
        | TextBlock text => collect_text rest (full_response ++ [text])
        | _ => collect_text rest full_response
        end
      else collect_text rest full_response
  end.

Definition help_text : pystr :=
  [10]
  ++ lit "Job Search Tool - Usage:" ++ [10]
  ++ lit "========================" ++ [10]
  ++ [10]
  ++ lit "Search for jobs:" ++ [10]
  ++ lit "    python job_search.py" ++ [10]
  ++ [10]
  ++ lit "Manage API key:" ++ [10]
  ++ lit "    --save-key          Save or update your Anthropic API key" ++ [10]
  ++ lit "    --reset-key         Remove saved API key" ++ [10]
  ++ lit "    --help              Show this help message" ++ [10]
  ++ [10]
  ++ lit "Examples:" ++ [10]
  ++ lit "    python job_search.py" ++ [10]
  ++ lit "    python job_search.py --save-key" ++ [10]
  ++ lit "    python job_search.py --reset-key" ++ [10].

Definition print_help : M unit := print help_text.

Definition count_calls (evs : list Event) : nat :=
  List.length (filter (fun e => match e with RemoteCall _ _ => true | _ => false end) evs).

Section Program.

(** Three things the source leaves to its environment: whether a float read
    from the file is non-zero ([bool(float(lexeme))], a matter of binary
    rounding), [str.lower] on text outside ASCII (the Unicode case tables),
    and the remote service, which answers the n-th call made so far. *)
Variable float_truth : pystr -> bool.
Variable unicode_lower : pystr -> pystr.
Variable remote : nat -> value -> Request -> Outcome.

(** [bool(v)] *)
Definition truthy (v : value) : bool :=
  match v with
  | PyNone => false
  | PyBool b => b
  | PyInt n => negb (n =? 0)
  | PyFloat lexeme => float_truth lexeme
  | PyStr s => nonempty s
  | PyList items => match items with [] => false | _ :: _ => true end
  | PyDict pairs => match pairs with [] => false | _ :: _ => true end
  end.

(** [s.lower()] *)
Definition lower (s : pystr) : pystr :=
  if isascii s then map ascii_lower s else unicode_lower s.

(** [anthropic.Anthropic(api_key=...).messages.create(...)] *)
Definition messages_create (api_key : value) (req : Request) : M Outcome :=
  fun w =>
    Ret (remote (count_calls (events w)) api_key req)
        (record (RemoteCall api_key req) w).

Definition get_api_key : M value :=
  api_key <- load_api_key ;;
  if negb (truthy api_key) then
    print ([10] ++ lit "No API key found. Please enter your Anthropic API key.") ;;
    print (lit "(You can get one from https://console.anthropic.com/)") ;;
    line <- input (lit "API Key: ") ;;
    let api_key := strip line in
    (if nonempty api_key then save_api_key api_key else ret tt) ;;
    ret (PyStr api_key)
  else ret api_key.

Definition search_jobs (keywords location : pystr) (api_key : value) : M unit :=
  print (searching_notice keywords location) ;;
  outcome <- messages_create api_key (search_request keywords location) ;;
  match outcome with
  | Returns blocks =>
      let full_response := collect_text blocks [] in
      let result := join [10] full_response in
      if nonempty result then
        print separator ;;
        print result ;;
        print separator
      else
        print no_results_notice
  | RaisesAuthenticationError _ =>
      print invalid_key_message ;;
      print reset_hint ;;
      sys_exit 1
  | RaisesException msg =>
      print ([10; 0x274C] ++ lit " Error: " ++ msg) ;;
      sys_exit 1
  end.

(** [main]; [depth] bounds how deep [main] calls itself in the search-again
    loop, and a run that exhausts it ends with [RecursionError].  The
    interpreter's recursion limit counts every frame, so that the program
    reaches it inside a call of the round in progress; the model does not
    follow the frames. *)
Fixpoint main (depth : nat) : M unit :=
  match depth with
  | O => raise RecursionError
  | S depth' =>
      args <- sys_argv ;;
      if (1 <? List.length args)%nat then
        let arg := lower (nth 1 args []) in
        if str_eqb arg (lit "--help") || str_eqb arg (lit "-h") then
          print_help
        else if str_eqb arg (lit "--save-key") then
          print (lit "Enter your Anthropic API key:") ;;
          line <- input (lit "API Key: ") ;;
          let api_key := strip line in
          if nonempty api_key then save_api_key api_key
          else print (lit "No API key entered.")
        else if str_eqb arg (lit "--reset-key") then
          remove_api_key
        else
          print_argument (lit "Unknown argument: " ++ arg) ;;
          print (lit "Use --help to see available options.")
      else
        api_key <- get_api_key ;;
        (if negb (truthy api_key) then
           print (lit "API key is required to search for jobs.") ;;
           sys_exit 1
         else ret tt) ;;
        print ([10] ++ separator) ;;
        print (lit "                        JOB SEARCH TOOL") ;;
        print separator ;;
        print ([10] ++ lit "Enter job search details:") ;;
        line1 <- input (lit "Job keywords (e.g., 'software engineer', 'data analyst'): ") ;;
        let keywords := strip line1 in
        line2 <- input (lit "Location (e.g., 'San Francisco', 'Remote', 'New York'): ") ;;
        let location := strip line2 in
        (if negb (nonempty keywords) || negb (nonempty location) then
           print (lit "Both keywords and location are required!") ;;
           sys_exit 1
         else ret tt) ;;
        search_jobs keywords location api_key ;;
        print ([10] ++ separator) ;;
        line3 <- input ([10] ++ lit "Search again? (y/n): ") ;;
        let again := lower (strip line3) in
        if str_eqb again (lit "y") then main depth'
        else print ([10] ++ lit "Thank you for using Job Search Tool!")
  end.

End Program.

(* ================================================================== *)
(** ** Notions used to state the properties *)

(** The node at [CONFIG_FILE], whatever the state of its directory. *)
Definition config_file_of (d : ConfigDir) : Node :=
  match d with
  | DirPresent node => node
  | DirMissing | DirNotADirectory => Missing
  end.

(** The store can be written: neither path is occupied by a node of the
    wrong kind. *)
Definition store_writable (d : ConfigDir) : bool :=
  match d with
  | DirNotADirectory | DirPresent Directory => false
  | _ => true
  end.


Definition with_argv (args : list pystr) (w : World) : World :=
  {| argv := args; config_dir := config_dir w; stdin := stdin w;
     events := events w |}.

(** What a run leaves behind, the argument vector apart. *)
Definition observe {A} (r : Res A)
  : option Exn * ConfigDir * list pystr * list Event :=
  (match r with Ret _ _ => None | Raise e _ => Some e end,
   config_dir (final_world r), stdin (final_world r), events (final_world r)).

Definition is_input (e : Event) : bool :=
  match e with
  | Input _ => true
  | _ => false
  end.

Definition is_output (e : Event) : bool :=
  match e with
  | Output _ => true
  | _ => false
  end.

(** The two UTF-16 halves the encoder writes for a code point above
    [0xFFFF]. *)
Definition high_of (c : Z) : Z :=
  Z.lor 0xd800 (Z.land (Z.shiftr (c - 0x10000) 10) 0x3ff).

Definition low_of (c : Z) : Z :=
  Z.lor 0xdc00 (Z.land (c - 0x10000) 0x3ff).

(** The look-ahead of the decoder after a high surrogate finds no escaped
    low surrogate. *)
Definition no_low_escape (r2 : pystr) : Prop :=
  match strip_prefix [92; 117] r2 with
  | Some r3 =>
      exists uni2 r4,
        decode_uXXXX r3 = Some (uni2, r4) /\ is_low_surrogate uni2 = false
  | None => True
  end.

(** A world for examples: a program name, an optional argument, the lines
    the operator will type and the state of the store. *)
Definition world_of (args : list pystr) (d : ConfigDir) (lines : list pystr) : World :=
  {| argv := args; config_dir := d; stdin := lines; events := [] |}.

Definition stored (text : pystr) : ConfigDir :=
  DirPresent (RegularFile (TextData text)).

(** The world after [input(prompt)] has taken a line. *)
Definition consume (prompt : pystr) (w : World) : World :=
  {| argv := argv w; config_dir := config_dir w; stdin := tl (stdin w);
     events := events w ++ [Input prompt] |}.

(** The texts of the interactive flow, as [get_api_key] and [main] write
    them. *)
Definition key_prompt : pystr := lit "API Key: ".

Definition no_key_notice : pystr :=
  [10] ++ lit "No API key found. Please enter your Anthropic API key.".

Definition console_notice : pystr :=
  lit "(You can get one from https://console.anthropic.com/)".

Definition key_required_notice : pystr :=
  lit "API key is required to search for jobs.".

Definition keywords_prompt : pystr :=
  lit "Job keywords (e.g., 'software engineer', 'data analyst'): ".

Definition location_prompt : pystr :=
  lit "Location (e.g., 'San Francisco', 'Remote', 'New York'): ".

Definition both_required_notice : pystr :=
  lit "Both keywords and location are required!".

Definition again_prompt : pystr := [10] ++ lit "Search again? (y/n): ".

Definition farewell_notice : pystr :=
  [10] ++ lit "Thank you for using Job Search Tool!".

(** The world after the four lines that [main] prints before it asks for
    the search terms. *)
Definition banner (w : World) : World :=
  record (Output ([10] ++ lit "Enter job search details:"))
    (record (Output separator)
       (record (Output (lit "                        JOB SEARCH TOOL"))
          (record (Output ([10] ++ separator)) w))).

Definition is_call (e : Event) : bool :=
  match e with
  | RemoteCall _ _ => true
  | _ => false
  end.

(** A request as [main] may send it: the key counts as true, the request is
    the one [search_jobs] builds, and both search terms are non-empty and
    stripped. *)
Definition call_ok (float_truth : pystr -> bool) (e : Event) : Prop :=
  match e with
  | RemoteCall api_key req =>
      truthy float_truth api_key = true
      /\ exists line1 line2,
           req = search_request (strip line1) (strip line2)
           /\ strip line1 <> [] /\ strip line2 <> []
  | _ => True
  end.

(** What one run adds to the world: the arguments stay, input is only
    consumed, events are only appended, and each appended event satisfies
    [P]. *)
Definition advances (P : Event -> Prop) (w w' : World) : Prop :=
  argv w' = argv w
  /\ (exists k, stdin w' = skipn k (stdin w))
  /\ exists evs, events w' = events w ++ evs /\ Forall P evs.

Definition printable_ascii (c : Z) : bool := (32 <=? c) && (c <=? 126).

(* ================================================================== *)
(** ** Facts about strings *)

Lemma str_eqb_eq (a b : pystr) : str_eqb a b = true <-> a = b.
Proof.
  revert b. induction a as [| x a IH]; intros [| y b]; cbn; split;
    try congruence; try discriminate.
  - intros H. apply andb_true_iff in H as [Hx Hr].
    apply Z.eqb_eq in Hx. apply IH in Hr. congruence.
  - intros H. injection H as -> ->.
    rewrite Z.eqb_refl. cbn. apply IH. reflexivity.
Qed.

Lemma str_eqb_neq (a b : pystr) : a <> b -> str_eqb a b = false.
Proof.
  intros H. destruct (str_eqb a b) eqn:E; [| reflexivity].
  apply str_eqb_eq in E. contradiction.
Qed.

Lemma substring_middle (pre needle post : pystr) :
  substring needle (pre ++ needle ++ post).
Proof. exists pre, post. reflexivity. Qed.

Lemma nonempty_true (s : pystr) : nonempty s = true <-> s <> [].
Proof. destruct s; cbn; split; congruence. Qed.

Lemma nonempty_false (s : pystr) : nonempty s = false <-> s = [].
Proof. destruct s; cbn; split; congruence. Qed.


(* ================================================================== *)
(** ** The encoder and the decoder *)

Lemma hexval_hexdigit (d : Z) : 0 <= d < 16 -> hexval (hexdigit d) = Some d.
Proof.
  intros H.
  assert (d = 0 \/ d = 1 \/ d = 2 \/ d = 3 \/ d = 4 \/ d = 5 \/ d = 6 \/ d = 7
          \/ d = 8 \/ d = 9 \/ d = 10 \/ d = 11 \/ d = 12 \/ d = 13 \/ d = 14
          \/ d = 15) as Hd by lia.
  repeat (destruct Hd as [-> | Hd]; [reflexivity |]).
  subst d; reflexivity.
Qed.

Lemma decode_format (n : Z) (rest : pystr) :
  0 <= n < 65536 -> decode_uXXXX (format_04x n ++ rest) = Some (n, rest).
Proof.
  intros H. unfold format_04x, decode_uXXXX. cbn [app].
  rewrite !hexval_hexdigit by (apply Z.mod_pos_bound; lia).
  f_equal. f_equal.
  Z.to_euclidean_division_equations. lia.
Qed.

Lemma lor_high_low (a x : Z) :
  0 <= a -> 0 <= x < 1024 -> Z.lor (a * 1024) x = a * 1024 + x.
Proof.
  intros Ha Hx.
  enough (Z.land (a * 1024) x = 0) as Hland
    by (pose proof (Z.add_lor_land (a * 1024) x); lia).
  apply Z.bits_inj'. intros n Hn.
  rewrite Z.land_spec, Z.bits_0.
  destruct (Z.lt_ge_cases n 10) as [Hlt | Hge].
  - change 1024 with (2 ^ 10). rewrite Z.mul_pow2_bits_low by lia. reflexivity.
  - replace (Z.testbit x n) with false; [apply andb_false_r |].
    symmetry. destruct (Z.eq_dec x 0) as [-> | Hnz]; [apply Z.bits_0 |].
    apply Z.bits_above_log2; [lia |].
    apply Z.lt_le_trans with 10; [| lia].
    apply Z.log2_lt_pow2; [lia | change (2 ^ 10) with 1024; lia].
Qed.

Lemma high_of_eq (c : Z) :
  0x10000 <= c <= 0x10FFFF -> high_of c = 0xd800 + (c - 0x10000) / 1024.
Proof.
  intros H. unfold high_of.
  rewrite Z.shiftr_div_pow2 by lia. change (2 ^ 10) with 1024.
  change 0x3ff with (Z.ones 10). rewrite Z.land_ones by lia.
  change (2 ^ 10) with 1024.
  rewrite Z.mod_small by (Z.to_euclidean_division_equations; lia).
  change 0xd800 with (54 * 1024).
  apply lor_high_low; Z.to_euclidean_division_equations; lia.
Qed.

Lemma low_of_eq (c : Z) :
  0x10000 <= c <= 0x10FFFF -> low_of c = 0xdc00 + (c - 0x10000) mod 1024.
Proof.
  intros H. unfold low_of.
  change 0x3ff with (Z.ones 10). rewrite Z.land_ones by lia.
  change (2 ^ 10) with 1024.
  change 0xdc00 with (55 * 1024).
  apply lor_high_low; Z.to_euclidean_division_equations; lia.
Qed.

Lemma join_pair (hi lo : Z) :
  0xd800 <= hi <= 0xdbff -> 0xdc00 <= lo <= 0xdfff ->
  0x10000 + Z.lor (Z.shiftl (hi - 0xd800) 10) (lo - 0xdc00)
  = 0x10000 + (hi - 0xd800) * 1024 + (lo - 0xdc00).
Proof.
  intros Hh Hl. rewrite Z.shiftl_mul_pow2 by lia. change (2 ^ 10) with 1024.
  rewrite lor_high_low by lia. lia.
Qed.

Lemma join_split (c : Z) :
  0x10000 <= c <= 0x10FFFF ->
  0x10000 + Z.lor (Z.shiftl (high_of c - 0xd800) 10) (low_of c - 0xdc00) = c.
Proof.
  intros H. rewrite join_pair.
  - rewrite high_of_eq, low_of_eq by lia. Z.to_euclidean_division_equations. lia.
  - rewrite high_of_eq by lia. Z.to_euclidean_division_equations. lia.
  - rewrite low_of_eq by lia. Z.to_euclidean_division_equations. lia.
Qed.

Lemma escape_char_supplementary (c : Z) :
  0x10000 <= c ->
  escape_char c = (92 :: 117 :: format_04x (high_of c)) ++ (92 :: 117 :: format_04x (low_of c)).
Proof.
  intros H. unfold escape_char.
  repeat match goal with
  | |- context [?a =? ?b] => destruct (Z.eqb_spec a b); [lia |]
  end.
  destruct (Z.leb_spec 32 c); [| lia].
  destruct (Z.leb_spec c 126); [lia |].
  destruct (Z.ltb_spec c 0x10000); [lia |].
  reflexivity.
Qed.

Lemma scan_step_plain fuel c r acc :
  c <> 34 -> c <> 92 -> 32 <= c ->
  scanstring_aux (S fuel) (c :: r) acc = scanstring_aux fuel r (c :: acc).
Proof.
  intros H1 H2 H3. cbn [scanstring_aux].
  destruct (Z.eqb_spec c 34); [lia |].
  destruct (Z.eqb_spec c 92); [lia |].
  destruct (Z.ltb_spec c 32); [lia |]. reflexivity.
Qed.

Lemma scan_step_short fuel esc ch r acc :
  esc <> 117 -> backslash esc = Some ch ->
  scanstring_aux (S fuel) (92 :: esc :: r) acc = scanstring_aux fuel r (ch :: acc).
Proof.
  intros H1 H2. cbn [scanstring_aux]. cbn [Z.eqb Pos.eqb].
  destruct (Z.eqb_spec esc 117); [lia |]. rewrite H2. reflexivity.
Qed.

Lemma scan_step_u fuel r1 uni r2 acc :
  decode_uXXXX r1 = Some (uni, r2) -> is_high_surrogate uni = false ->
  scanstring_aux (S fuel) (92 :: 117 :: r1) acc = scanstring_aux fuel r2 (uni :: acc).
Proof.
  intros H1 H2. cbn [scanstring_aux]. cbn [Z.eqb Pos.eqb].
  rewrite H1, H2. reflexivity.
Qed.

Lemma scan_step_pair fuel r1 hi lo r3 r4 acc :
  decode_uXXXX r1 = Some (hi, 92 :: 117 :: r3) -> is_high_surrogate hi = true ->
  decode_uXXXX r3 = Some (lo, r4) -> is_low_surrogate lo = true ->
  scanstring_aux (S fuel) (92 :: 117 :: r1) acc
  = scanstring_aux fuel r4
      (0x10000 + Z.lor (Z.shiftl (hi - 0xd800) 10) (lo - 0xdc00) :: acc).
Proof.
  intros H1 H2 H3 H4. cbn [scanstring_aux]. cbn [Z.eqb Pos.eqb].
  rewrite H1, H2. cbn [strip_prefix Z.eqb Pos.eqb].
  rewrite H3, H4. reflexivity.
Qed.

Lemma scan_step_lone fuel r1 hi r2 acc :
  decode_uXXXX r1 = Some (hi, r2) -> is_high_surrogate hi = true ->
  no_low_escape r2 ->
  scanstring_aux (S fuel) (92 :: 117 :: r1) acc = scanstring_aux fuel r2 (hi :: acc).
Proof.
  intros H1 H2 H3. cbn [scanstring_aux]. cbn [Z.eqb Pos.eqb].
  rewrite H1, H2. unfold no_low_escape in H3.
  destruct (strip_prefix [92; 117] r2) as [r3 |]; [| reflexivity].
  destruct H3 as (uni2 & r4 & -> & ->). reflexivity.
Qed.

Ltac split_char c :=
  unfold escape_char;
  repeat match goal with
  | |- context [c =? ?b] => destruct (Z.eqb_spec c b)
  | |- context [?b <=? c] => destruct (Z.leb_spec b c)
  | |- context [c <=? ?b] => destruct (Z.leb_spec c b)
  | |- context [c <? ?b] => destruct (Z.ltb_spec c b)
  end; cbn [andb].

Lemma escape_char_bmp (c : Z) :
  0 <= c < 0x10000 -> is_high_surrogate c = true \/ is_low_surrogate c = true ->
  escape_char c = 92 :: 117 :: format_04x c.
Proof.
  intros H Hs.
  assert (0xd800 <= c <= 0xdfff) as Hc
    by (unfold is_high_surrogate, is_low_surrogate in Hs; lia).
  split_char c; try lia; reflexivity.
Qed.

Lemma high_of_is_high (c : Z) :
  0x10000 <= c <= 0x10FFFF -> 0xd800 <= high_of c <= 0xdbff.
Proof. intros H. rewrite high_of_eq by lia. Z.to_euclidean_division_equations. lia. Qed.

Lemma low_of_is_low (c : Z) :
  0x10000 <= c <= 0x10FFFF -> 0xdc00 <= low_of c <= 0xdfff.
Proof. intros H. rewrite low_of_eq by lia. Z.to_euclidean_division_equations. lia. Qed.

Lemma scan_escape_char fuel c tail acc :
  valid_codepoint c -> is_high_surrogate c = false ->
  scanstring_aux (S fuel) (escape_char c ++ tail) acc
  = scanstring_aux fuel tail (c :: acc).
Proof.
  unfold valid_codepoint. intros Hv Hh.
  destruct (Z.ltb_spec c 0x10000) as [Hbmp | Hsup].
  - split_char c; subst; cbn [app];
      try (apply scan_step_short; [lia | reflexivity]);
      try (apply scan_step_plain; lia);
      try lia;
      (apply scan_step_u; [apply decode_format; lia | assumption]).
  - rewrite escape_char_supplementary by lia.
    pose proof (high_of_is_high c ltac:(lia)) as Hhi.
    pose proof (low_of_is_low c ltac:(lia)) as Hlo.
    cbn [app]. rewrite <- app_assoc.
    rewrite (scan_step_pair fuel _ (high_of c) (low_of c)
               (format_04x (low_of c) ++ tail) tail).
    + rewrite join_split by lia. reflexivity.
    + apply decode_format. lia.
    + unfold is_high_surrogate. lia.
    + apply decode_format. lia.
    + unfold is_low_surrogate. lia.
Qed.

Lemma no_low_escape_char (d : Z) (tail : pystr) :
  valid_codepoint d -> is_low_surrogate d = false ->
  no_low_escape (escape_char d ++ tail).
Proof.
  unfold valid_codepoint. intros Hv Hl.
  destruct (Z.ltb_spec d 0x10000) as [Hbmp | Hsup].
  - split_char d; subst; cbn [app]; try lia;
      unfold no_low_escape; cbn [strip_prefix];
      repeat match goal with
      | |- context [?a =? ?b] => destruct (Z.eqb_spec a b); try lia
      end;
      try exact I;
      (exists d, tail; split; [apply decode_format; lia | assumption]).
  - rewrite escape_char_supplementary by lia.
    pose proof (high_of_is_high d ltac:(lia)) as Hhi.
    unfold no_low_escape. cbn [app strip_prefix Z.eqb Pos.eqb].
    rewrite <- app_assoc.
    eexists _, _. split; [apply decode_format; lia |].
    unfold is_low_surrogate. lia.
Qed.

Lemma join_surrogates_cons (c : Z) (s : pystr) :
  is_high_surrogate c = false -> join_surrogates (c :: s) = c :: join_surrogates s.
Proof. intros H. destruct s; cbn [join_surrogates]; [| rewrite H]; reflexivity. Qed.

Lemma join_surrogates_lone (c d : Z) (s : pystr) :
  is_low_surrogate d = false ->
  join_surrogates (c :: d :: s) = c :: join_surrogates (d :: s).
Proof. intros H. cbn [join_surrogates]. rewrite H, andb_false_r. reflexivity. Qed.

Lemma scan_escaped_bounded (n : nat) :
  forall s, (List.length s <= n)%nat -> well_formed s ->
  forall fuel acc rest, (List.length s < fuel)%nat ->
    scanstring_aux fuel (flat_map escape_char s ++ 34 :: rest) acc
    = Some (rev acc ++ join_surrogates s, rest).
Proof.
  induction n as [| n IH]; intros s Hlen Hwf fuel acc rest Hfuel.
  - destruct s; [| cbn in Hlen; lia].
    destruct fuel; [lia |]. cbn. rewrite app_nil_r. reflexivity.
  - destruct s as [| c s]; [destruct fuel; [lia |]; cbn; rewrite app_nil_r; reflexivity |].
    destruct fuel as [| fuel]; [lia |].
    cbn [List.length] in Hlen, Hfuel.
    inversion Hwf as [| ? ? Hc Hs]; subst.
    cbn [flat_map]. rewrite <- app_assoc.
    destruct (is_high_surrogate c) eqn:Hhigh.
    + (* a high surrogate: the decoder looks one escape ahead *)
      assert (0xd800 <= c <= 0xdbff) as Hrange by (unfold is_high_surrogate in Hhigh; lia).
      rewrite escape_char_bmp by (auto; lia). cbn [app].
      destruct s as [| d s].
      * rewrite (scan_step_lone fuel _ c (34 :: rest));
          [| apply decode_format; lia | assumption | exact I].
        destruct fuel as [| fuel]; [cbn in Hfuel; lia |].
        cbn [scanstring_aux Z.eqb Pos.eqb join_surrogates rev]. reflexivity.
      * inversion Hs as [| ? ? Hd Hs']; subst.
        cbn [List.length] in Hlen, Hfuel.
        destruct (is_low_surrogate d) eqn:Hlow.
        -- assert (0xdc00 <= d <= 0xdfff) as Hrange' by (unfold is_low_surrogate in Hlow; lia).
           cbn [flat_map]. rewrite <- app_assoc.
           rewrite (escape_char_bmp d) by (auto; lia). cbn [app].
           rewrite (scan_step_pair fuel _ c d
                      (format_04x d ++ flat_map escape_char s ++ 34 :: rest)
                      (flat_map escape_char s ++ 34 :: rest));
             [| apply decode_format; lia | assumption | apply decode_format; lia | assumption].
           rewrite (IH s ltac:(lia) Hs' fuel _ rest ltac:(lia)).
           cbn [join_surrogates rev]. rewrite Hhigh, Hlow. cbn [andb].
           rewrite <- app_assoc. reflexivity.
        -- rewrite (scan_step_lone fuel _ c (flat_map escape_char (d :: s) ++ 34 :: rest));
             [| apply decode_format; lia | assumption
              | cbn [flat_map]; rewrite <- app_assoc; apply no_low_escape_char; assumption].
           rewrite (IH (d :: s) ltac:(cbn [List.length]; lia) Hs fuel _ rest
                      ltac:(cbn [List.length]; lia)).
           rewrite join_surrogates_lone by assumption.
           cbn [rev]. rewrite <- app_assoc. reflexivity.
    + rewrite scan_escape_char by assumption.
      rewrite (IH s ltac:(lia) Hs fuel _ rest ltac:(lia)).
      rewrite join_surrogates_cons by assumption.
      cbn [rev]. rewrite <- app_assoc. reflexivity.
Qed.

Lemma scan_escaped (s rest : pystr) (fuel : nat) :
  well_formed s -> (List.length s < fuel)%nat ->
  scanstring_aux fuel (flat_map escape_char s ++ 34 :: rest) []
  = Some (join_surrogates s, rest).
Proof.
  intros Hwf Hfuel.
  apply (scan_escaped_bounded (List.length s) s (le_n _) Hwf fuel [] rest Hfuel).
Qed.

Lemma escape_char_nonempty (c : Z) : (1 <= List.length (escape_char c))%nat.
Proof.
  unfold escape_char.
  repeat match goal with
  | |- context [if ?b then _ else _] => destruct b
  end; cbn; try rewrite length_app; cbn; lia.
Qed.

Lemma flat_map_escape_length (s : pystr) :
  (List.length s <= List.length (flat_map escape_char s))%nat.
Proof.
  induction s as [| c s IH]; [cbn; lia |].
  cbn [flat_map List.length]. rewrite length_app.
  pose proof (escape_char_nonempty c). lia.
Qed.

Lemma scanstring_encoded (s rest : pystr) :
  well_formed s ->
  scanstring (flat_map escape_char s ++ 34 :: rest) = Some (join_surrogates s, rest).
Proof.
  intros Hwf. unfold scanstring. apply scan_escaped; [assumption |].
  rewrite length_app. pose proof (flat_map_escape_length s). cbn. lia.
Qed.

Lemma dumps_single (key secret : pystr) :
  dumps [(key, secret)]
  = 123 :: 34 :: flat_map escape_char key
    ++ 34 :: 58 :: 32 :: 34 :: flat_map escape_char secret ++ [34; 125].
Proof.
  unfold dumps, encode_basestring_ascii. cbn [map join fst snd].
  change (lit "{") with [123]. change (lit "}") with [125].
  change (lit ": ") with [58; 32].
  repeat (cbn [app]; rewrite <- ?app_assoc). reflexivity.
Qed.

Lemma scan_once_document (fuel : nat) (key secret : pystr) :
  well_formed key -> well_formed secret ->
  scan_once (S (S (S fuel)))
    (123 :: 34 :: flat_map escape_char key
     ++ 34 :: 58 :: 32 :: 34 :: flat_map escape_char secret ++ [34; 125])
  = Some (PyDict [(join_surrogates key, PyStr (join_surrogates secret))], []).
Proof.
  intros Hk Hs.
  cbn [scan_once Z.eqb Pos.eqb skip_ws is_ws orb].
  cbn [scan_members].
  rewrite scanstring_encoded by assumption.
  cbn [skip_ws is_ws Z.eqb Pos.eqb orb scan_once strip_prefix].
  rewrite scanstring_encoded by assumption.
  cbn [skip_ws is_ws Z.eqb Pos.eqb orb rev app]. reflexivity.
Qed.

Lemma loads_dumps (key secret : pystr) :
  well_formed key -> well_formed secret ->
  loads (dumps [(key, secret)])
  = Some (PyDict [(join_surrogates key, PyStr (join_surrogates secret))]).
Proof.
  intros Hk Hs. rewrite dumps_single. unfold loads.
  cbn [List.length skip_ws is_ws Z.eqb Pos.eqb orb strip_prefix].
  rewrite scan_once_document by assumption. reflexivity.
Qed.

Lemma join_surrogates_unfold (hi lo : Z) (r : pystr) :
  join_surrogates (hi :: lo :: r)
  = if is_high_surrogate hi && is_low_surrogate lo
    then (0x10000 + Z.lor (Z.shiftl (hi - 0xd800) 10) (lo - 0xdc00))
         :: join_surrogates r
    else hi :: join_surrogates (lo :: r).
Proof. reflexivity. Qed.

Lemma join_surrogates_length_bounded (n : nat) :
  forall s, (List.length s <= n)%nat ->
    (List.length (join_surrogates s) <= List.length s)%nat.
Proof.
  induction n as [| n IH]; intros [| hi [| lo r]] Hn;
    cbn [List.length] in Hn; try lia;
    try (cbn [join_surrogates List.length]; lia).
  rewrite join_surrogates_unfold.
  destruct (is_high_surrogate hi && is_low_surrogate lo); cbn [List.length].
  - specialize (IH r ltac:(lia)). lia.
  - specialize (IH (lo :: r) ltac:(cbn [List.length]; lia)).
    cbn [List.length] in IH. lia.
Qed.

Lemma join_surrogates_length (s : pystr) :
  (List.length (join_surrogates s) <= List.length s)%nat.
Proof. apply (join_surrogates_length_bounded (List.length s)). lia. Qed.

Lemma join_surrogates_fixed (s : pystr) :
  join_surrogates s = s <-> no_surrogate_pair s = true.
Proof.
  induction s as [| hi [| lo r] IH]; [cbn; tauto | cbn; tauto |].
  rewrite join_surrogates_unfold.
  change (no_surrogate_pair (hi :: lo :: r))
    with (negb (is_high_surrogate hi && is_low_surrogate lo)
          && no_surrogate_pair (lo :: r)).
  destruct (is_high_surrogate hi && is_low_surrogate lo); cbn [negb andb].
  - split; [| discriminate]. intros H.
    apply (f_equal (@List.length Z)) in H. cbn [List.length] in H.
    pose proof (join_surrogates_length r). lia.
  - rewrite <- IH. split; intros H.
    + apply (f_equal (@tl Z)) in H. exact H.
    + rewrite H. reflexivity.
Qed.

Lemma lit_well_formed (s : string) : well_formed (lit s).
Proof.
  unfold well_formed, lit. apply Forall_forall. intros c Hin.
  apply in_map_iff in Hin as (a & <- & _).
  unfold valid_codepoint.
  pose proof (N_ascii_bounded a) as Hb. lia.
Qed.

Lemma loads_dumps_api_key (secret : pystr) :
  well_formed secret ->
  loads (dumps [(lit "api_key", secret)])
  = Some (PyDict [(lit "api_key", PyStr (join_surrogates secret))]).
Proof.
  intros H. rewrite loads_dumps by (auto using lit_well_formed). reflexivity.
Qed.

(* ================================================================== *)
(** ** The budgets of the decoder *)

Lemma skip_ws_length (s : pystr) : (List.length (skip_ws s) <= List.length s)%nat.
Proof.
  induction s as [| c s IH]; cbn [skip_ws List.length]; [lia |].
  destruct (is_ws c); cbn [List.length]; lia.
Qed.

Lemma strip_prefix_length (p s r : pystr) :
  strip_prefix p s = Some r -> List.length s = (List.length p + List.length r)%nat.
Proof.
  revert s. induction p as [| x p IH]; intros s H.
  - injection H as <-. reflexivity.
  - destruct s as [| y s]; [discriminate |]. cbn [strip_prefix] in H.
    destruct (x =? y); [| discriminate].
    apply IH in H. cbn [List.length]. lia.
Qed.

Lemma decode_uXXXX_length (s r : pystr) (u : Z) :
  decode_uXXXX s = Some (u, r) -> List.length s = (4 + List.length r)%nat.
Proof.
  unfold decode_uXXXX. intros H.
  destruct s as [| a [| b [| c [| d rest]]]]; try discriminate.
  destruct (hexval a), (hexval b), (hexval c), (hexval d); try discriminate.
  injection H as _ <-. reflexivity.
Qed.

Lemma scanstring_aux_enough (m : nat) :
  forall s acc str r,
    scanstring_aux m s acc = Some (str, r) ->
    (List.length r < List.length s)%nat
    /\ forall k, (List.length s - List.length r <= k)%nat ->
         scanstring_aux k s acc = Some (str, r).
Proof.
  induction m as [| m IH]; intros s acc str r H; [discriminate |].
  cbn [scanstring_aux] in H.
  destruct s as [| c s]; [discriminate |].
  assert (forall s' acc',
            (List.length s' <= List.length s)%nat ->
            scanstring_aux m s' acc' = Some (str, r) ->
            (forall k, scanstring_aux (S k) (c :: s) acc = scanstring_aux k s' acc') ->
            (List.length r < List.length (c :: s))%nat
            /\ forall k, (List.length (c :: s) - List.length r <= k)%nat ->
                 scanstring_aux k (c :: s) acc = Some (str, r)) as Hstep.
  { intros s' acc' Hle Hrec Hunfold. apply IH in Hrec as [Hlen Hk].
    split; [cbn [List.length]; lia |].
    intros k Hneed. destruct k as [| k]; [cbn [List.length] in Hneed; lia |].
    rewrite Hunfold. apply Hk. cbn [List.length] in Hneed. lia. }
  destruct (c =? 34) eqn:E34.
  { injection H as <- <-. split; [cbn [List.length]; lia |].
    intros k Hk. destruct k as [| k]; [cbn [List.length] in Hk; lia |].
    cbn [scanstring_aux]. rewrite E34. reflexivity. }
  destruct (c =? 92) eqn:E92.
  - destruct s as [| esc r1]; [discriminate |].
    destruct (esc =? 117) eqn:E117.
    + destruct (decode_uXXXX r1) as [[uni r2] |] eqn:Ed; [| discriminate].
      pose proof (decode_uXXXX_length _ _ _ Ed) as Ld.
      destruct (is_high_surrogate uni) eqn:Eh.
      * destruct (strip_prefix [92; 117] r2) as [r3 |] eqn:Ep.
        -- pose proof (strip_prefix_length _ _ _ Ep) as Lp.
           destruct (decode_uXXXX r3) as [[uni2 r4] |] eqn:Ed2; [| discriminate].
           pose proof (decode_uXXXX_length _ _ _ Ed2) as Ld2.
           destruct (is_low_surrogate uni2) eqn:El.
           ++ eapply Hstep with (2 := H); [cbn [List.length] in *; lia |].
              intros k. cbn [scanstring_aux].
              rewrite E34, E92, E117, Ed, Eh, Ep, Ed2, El. reflexivity.
           ++ eapply Hstep with (2 := H); [cbn [List.length] in *; lia |].
              intros k. cbn [scanstring_aux].
              rewrite E34, E92, E117, Ed, Eh, Ep, Ed2, El. reflexivity.
        -- eapply Hstep with (2 := H); [cbn [List.length] in *; lia |].
           intros k. cbn [scanstring_aux].
           rewrite E34, E92, E117, Ed, Eh, Ep. reflexivity.
      * eapply Hstep with (2 := H); [cbn [List.length] in *; lia |].
        intros k. cbn [scanstring_aux].
        rewrite E34, E92, E117, Ed, Eh. reflexivity.
    + destruct (backslash esc) as [ch |] eqn:Eb; [| discriminate].
      eapply Hstep with (2 := H); [cbn [List.length] in *; lia |].
      intros k. cbn [scanstring_aux]. rewrite E34, E92, E117, Eb. reflexivity.
  - destruct (c <? 32) eqn:E32; [discriminate |].
    eapply Hstep with (2 := H); [cbn [List.length] in *; lia |].
    intros k. cbn [scanstring_aux]. rewrite E34, E92, E32. reflexivity.
Qed.

(** The budget of [scanstring] is never the reason for a failure: what any
    budget reads, the budget of one unit per character reads. *)
Lemma scanstring_budget (m : nat) (s : pystr) (res : pystr * pystr) :
  scanstring_aux m s [] = Some res -> scanstring s = Some res.
Proof.
  destruct res as [str r]. intros H.
  apply scanstring_aux_enough in H as [_ H]. apply H. lia.
Qed.

Lemma scanstring_length (s str r : pystr) :
  scanstring s = Some (str, r) -> (List.length r < List.length s)%nat.
Proof. intros H. apply scanstring_aux_enough in H as [H _]. exact H. Qed.

Lemma span_digits_length (s d r : pystr) :
  span_digits s = (d, r) -> List.length s = (List.length d + List.length r)%nat.
Proof.
  revert d r. induction s as [| c s IH]; intros d r H; cbn [span_digits] in H.
  - injection H as <- <-. reflexivity.
  - destruct (is_digit c).
    + destruct (span_digits s) as [d' r'] eqn:E. injection H as <- <-.
      specialize (IH _ _ eq_refl). cbn [List.length]. lia.
    + injection H as <- <-. reflexivity.
Qed.

Lemma match_frac_length (s f r : pystr) :
  match_frac s = (f, r) -> List.length s = (List.length f + List.length r)%nat.
Proof.
  unfold match_frac. intros H.
  destruct (strip_prefix [46] s) as [r0 |] eqn:Ep.
  - apply strip_prefix_length in Ep.
    destruct (span_digits r0) as [d r'] eqn:Ed. apply span_digits_length in Ed.
    destruct d; injection H as <- <-; cbn [List.length] in *; lia.
  - injection H as <- <-. reflexivity.
Qed.

Lemma match_exp_length (s e r : pystr) :
  match_exp s = (e, r) -> List.length s = (List.length e + List.length r)%nat.
Proof.
  unfold match_exp. intros H.
  destruct s as [| c s]; [injection H as <- <-; reflexivity |].
  destruct ((c =? 101) || (c =? 69)); [| injection H as <- <-; reflexivity].
  destruct (match s with
            | [] => ([], s)
            | sg :: r' => if (sg =? 45) || (sg =? 43) then ([sg], r') else ([], s)
            end) as [sign r0] eqn:Es.
  assert (List.length s = (List.length sign + List.length r0)%nat) as Ls.
  { destruct s as [| sg s']; [injection Es as <- <-; reflexivity |].
    destruct ((sg =? 45) || (sg =? 43)); injection Es as <- <-; reflexivity. }
  destruct (span_digits r0) as [d r'] eqn:Ed. apply span_digits_length in Ed.
  destruct d; injection H as <- <-; cbn [List.length] in *;
    rewrite ?length_app; cbn [List.length] in *; lia.
Qed.

Lemma match_integer_length (s digits r : pystr) (neg : bool) :
  match_integer s = Some (neg, digits, r) -> (List.length r < List.length s)%nat.
Proof.
  unfold match_integer. intros H.
  destruct (match strip_prefix [45] s with
            | Some r0 => (true, r0)
            | None => (false, s)
            end) as [neg' s1] eqn:En.
  assert (List.length s1 <= List.length s)%nat as Ls.
  { destruct (strip_prefix [45] s) as [r0 |] eqn:Ep; injection En as <- <-; [| lia].
    apply strip_prefix_length in Ep. lia. }
  destruct s1 as [| c s1]; [discriminate |].
  destruct (c =? 48).
  - injection H as <- <- <-. cbn [List.length] in Ls. lia.
  - destruct (is_digit c); [| discriminate].
    destruct (span_digits s1) as [d r'] eqn:Ed. apply span_digits_length in Ed.
    injection H as <- <- <-. cbn [List.length] in Ls. lia.
Qed.

Lemma match_number_length (s r : pystr) (v : value) :
  match_number s = Some (v, r) -> (List.length r < List.length s)%nat.
Proof.
  unfold match_number. intros H.
  destruct (match_integer s) as [[[neg digits] r0] |] eqn:Ei; [| discriminate].
  apply match_integer_length in Ei.
  destruct (match_frac r0) as [frac r1] eqn:Ef. apply match_frac_length in Ef.
  destruct (match_exp r1) as [e r2] eqn:Ee. apply match_exp_length in Ee.
  destruct frac, e; injection H as <- <-; lia.
Qed.

Lemma match_constant_length (s r : pystr) (v : value) :
  match_constant s = Some (v, r) -> (List.length r < List.length s)%nat.
Proof.
  unfold match_constant. intros H.
  destruct (strip_prefix (lit "NaN") s) as [r0 |] eqn:E1.
  { injection H as <- <-. apply strip_prefix_length in E1. cbn in E1. lia. }
  destruct (strip_prefix (lit "Infinity") s) as [r0 |] eqn:E2.
  { injection H as <- <-. apply strip_prefix_length in E2. cbn in E2. lia. }
  destruct (strip_prefix (lit "-Infinity") s) as [r0 |] eqn:E3; [| discriminate].
  injection H as <- <-. apply strip_prefix_length in E3. cbn in E3. lia.
Qed.

(** The part of [scan_once] that reads a value without nesting. *)
Lemma scan_scalar_length (s r : pystr) (v : value) :
  match strip_prefix (lit "null") s with
  | Some r' => Some (PyNone, r')
  | None =>
  match strip_prefix (lit "true") s with
  | Some r' => Some (PyBool true, r')
  | None =>
  match strip_prefix (lit "false") s with
  | Some r' => Some (PyBool false, r')
  | None =>
  match match_number s with
  | Some res => Some res
  | None => match_constant s
  end end end end = Some (v, r) ->
  (List.length r < List.length s)%nat.
Proof.
  intros H.
  destruct (strip_prefix (lit "null") s) as [r0 |] eqn:E1.
  { injection H as <- <-. apply strip_prefix_length in E1. cbn in E1. lia. }
  destruct (strip_prefix (lit "true") s) as [r0 |] eqn:E2.
  { injection H as <- <-. apply strip_prefix_length in E2. cbn in E2. lia. }
  destruct (strip_prefix (lit "false") s) as [r0 |] eqn:E3.
  { injection H as <- <-. apply strip_prefix_length in E3. cbn in E3. lia. }
  destruct (match_number s) as [[v0 r0] |] eqn:E4.
  { injection H as <- <-. apply match_number_length in E4. exact E4. }
  apply match_constant_length in H. exact H.
Qed.

Lemma scan_enough (m : nat) :
  (forall s v r,
     scan_once m s = Some (v, r) ->
     (List.length r < List.length s)%nat
     /\ forall k, (List.length s - List.length r <= k)%nat ->
          scan_once k s = Some (v, r))
  /\ (forall s acc v r,
        scan_members m s acc = Some (v, r) ->
        (List.length r < List.length s)%nat
        /\ forall k, (List.length s - List.length r <= k)%nat ->
             scan_members k s acc = Some (v, r))
  /\ (forall s acc v r,
        scan_items m s acc = Some (v, r) ->
        (List.length r < List.length s)%nat
        /\ forall k, (List.length s - List.length r <= k)%nat ->
             scan_items k s acc = Some (v, r)).
Proof.
  induction m as [| m (IHo & IHm & IHi)];
    [repeat split; intros; discriminate |].
  split; [| split].
  - (* scan_once *)
    intros s v r H. cbn [scan_once] in H.
    destruct s as [| c s]; [discriminate |].
    destruct (c =? 34) eqn:E34.
    { destruct (scanstring s) as [[str r'] |] eqn:Es; [| discriminate].
      injection H as <- <-. pose proof (scanstring_length _ _ _ Es) as Ls.
      split; [cbn [List.length]; lia |].
      intros k Hk. destruct k as [| k]; [cbn [List.length] in Hk; lia |].
      cbn [scan_once]. rewrite E34, Es. reflexivity. }
    destruct (c =? 123) eqn:E123.
    { pose proof (skip_ws_length s) as Lw.
      destruct (skip_ws s) as [| c' r'] eqn:Ew; [discriminate |].
      destruct (c' =? 125) eqn:E125.
      { injection H as <- <-. cbn [List.length] in Lw.
        split; [cbn [List.length]; lia |].
        intros k Hk. destruct k as [| k]; [cbn [List.length] in Hk; lia |].
        cbn [scan_once]. rewrite E34, E123, Ew, E125. reflexivity. }
      destruct (c' =? 34) eqn:E34'; [| discriminate].
      apply IHm in H as [Hl Hk]. cbn [List.length] in Lw.
      split; [cbn [List.length]; lia |].
      intros k Hneed. destruct k as [| k]; [cbn [List.length] in Hneed; lia |].
      cbn [scan_once]. rewrite E34, E123, Ew, E125, E34'.
      apply Hk. cbn [List.length] in Hneed. lia. }
    destruct (c =? 91) eqn:E91.
    { pose proof (skip_ws_length s) as Lw.
      destruct (strip_prefix [93] (skip_ws s)) as [r' |] eqn:Ep.
      { injection H as <- <-.
        pose proof (strip_prefix_length _ _ _ Ep) as Lp.
        cbn [List.length] in Lp.
        split; [cbn [List.length]; lia |].
        intros k Hk. destruct k as [| k]; [cbn [List.length] in Hk; lia |].
        cbn [scan_once]. rewrite E34, E123, E91, Ep. reflexivity. }
      apply IHi in H as [Hl Hk].
      split; [cbn [List.length]; lia |].
      intros k Hneed. destruct k as [| k]; [cbn [List.length] in Hneed; lia |].
      cbn [scan_once]. rewrite E34, E123, E91, Ep.
      apply Hk. cbn [List.length] in Hneed. lia. }
    pose proof (scan_scalar_length _ _ _ H) as Ls.
    split; [exact Ls |].
    intros k Hk. destruct k as [| k]; [lia |].
    cbn [scan_once]. rewrite E34, E123, E91. exact H.
  - (* scan_members *)
    intros s acc v r H. cbn [scan_members] in H.
    destruct (scanstring s) as [[key r0] |] eqn:Es; [| discriminate].
    pose proof (scanstring_length _ _ _ Es) as Ls.
    pose proof (skip_ws_length r0) as Lw0.
    destruct (strip_prefix [58] (skip_ws r0)) as [r1 |] eqn:Ep; [| discriminate].
    pose proof (strip_prefix_length _ _ _ Ep) as Lp. cbn [List.length] in Lp.
    pose proof (skip_ws_length r1) as Lw1.
    destruct (scan_once m (skip_ws r1)) as [[v1 r2] |] eqn:Eo; [| discriminate].
    apply IHo in Eo as [Lo Ko].
    pose proof (skip_ws_length r2) as Lw2.
    destruct (skip_ws r2) as [| c r3] eqn:Ew2; [discriminate |].
    cbn [List.length] in Lw2.
    destruct (c =? 125) eqn:E125.
    { injection H as <- <-. split; [lia |].
      intros k Hk. destruct k as [| k]; [lia |].
      cbn [scan_members]. rewrite Es, Ep, (Ko k) by lia.
      rewrite Ew2, E125. reflexivity. }
    destruct (c =? 44) eqn:E44; [| discriminate].
    pose proof (skip_ws_length r3) as Lw3.
    destruct (strip_prefix [34] (skip_ws r3)) as [r4 |] eqn:Ep4; [| discriminate].
    pose proof (strip_prefix_length _ _ _ Ep4) as Lp4. cbn [List.length] in Lp4.
    apply IHm in H as [Hl Hk].
    split; [lia |].
    intros k Hneed. destruct k as [| k]; [lia |].
    cbn [scan_members]. rewrite Es, Ep, (Ko k) by lia.
    rewrite Ew2, E125, E44, Ep4. apply Hk. lia.
  - (* scan_items *)
    intros s acc v r H. cbn [scan_items] in H.
    destruct (scan_once m s) as [[v1 r0] |] eqn:Eo; [| discriminate].
    apply IHo in Eo as [Lo Ko].
    pose proof (skip_ws_length r0) as Lw0.
    destruct (skip_ws r0) as [| c r1] eqn:Ew0; [discriminate |].
    cbn [List.length] in Lw0.
    destruct (c =? 93) eqn:E93.
    { injection H as <- <-. split; [lia |].
      intros k Hk. destruct k as [| k]; [lia |].
      cbn [scan_items]. rewrite (Ko k) by lia. rewrite Ew0, E93. reflexivity. }
    destruct (c =? 44) eqn:E44; [| discriminate].
    pose proof (skip_ws_length r1) as Lw1.
    apply IHi in H as [Hl Hk].
    split; [lia |].
    intros k Hneed. destruct k as [| k]; [lia |].
    cbn [scan_items]. rewrite (Ko k) by lia. rewrite Ew0, E93, E44.
    apply Hk. lia.
Qed.

(** The budget of [loads] is never the reason for a failure: a document
    that some budget reads as one value between optional whitespace is read
    by [loads] as that value. *)
Theorem loads_budget (m : nat) (s r : pystr) (v : value) :
  strip_prefix [0xFEFF] s = None ->
  scan_once m (skip_ws s) = Some (v, r) ->
  skip_ws r = [] ->
  loads s = Some v.
Proof.
  intros Hbom H Hr. unfold loads. rewrite Hbom.
  destruct (scan_enough m) as (Ho & _ & _).
  apply Ho in H as [_ Hk]. rewrite Hk, Hr; [reflexivity |].
  pose proof (skip_ws_length s). lia.
Qed.

(* ================================================================== *)
(** ** The credential store *)

Lemma save_api_key_writable (secret : pystr) (w : World) :
  store_writable (config_dir w) = true ->
  save_api_key secret w
  = Ret tt {| argv := argv w;
              config_dir := stored (dumps [(lit "api_key", secret)]);
              stdin := stdin w;
              events := events w ++ [StoreMkdir; StoreWrite; Output saved_notice] |}.
Proof.
  intros Hw. unfold save_api_key, ensure_config_dir, json_dump, bind,
    CONFIG_DIR_mkdir, CONFIG_FILE_write, print, record, set_config_dir, stored.
  destruct w as [a d i e]. cbn in *.
  destruct d as [| | [| data |]]; cbn in *; try discriminate;
    repeat rewrite <- app_assoc; reflexivity.
Qed.

Lemma save_api_key_returns (secret : pystr) (w w1 : World) :
  save_api_key secret w = Ret tt w1 ->
  store_writable (config_dir w) = true.
Proof.
  unfold save_api_key, ensure_config_dir, json_dump, bind,
    CONFIG_DIR_mkdir, CONFIG_FILE_write, print, record, set_config_dir.
  destruct w as [a d i e]. cbn.
  destruct d as [| | [| data |]]; cbn; try discriminate; reflexivity.
Qed.

Lemma load_api_key_text (w : World) (text : pystr) :
  config_file_of (config_dir w) = RegularFile (TextData text) ->
  load_api_key w
  = Ret match loads text with
        | Some (PyDict pairs) =>
            match dict_get pairs (lit "api_key") with
            | Some v => v
            | None => PyNone
            end
        | _ => PyNone
        end
        (record StoreRead (record StoreExists w)).
Proof.
  intros Hf. destruct w as [a d i e]. cbn in Hf.
  destruct d as [| | node]; cbn in Hf; try discriminate. subst node.
  unfold load_api_key, bind, CONFIG_FILE_exists, try_except, json_load,
    CONFIG_FILE_read, bind. cbn.
  destruct (loads text) as [[] |]; reflexivity.
Qed.


Lemma load_api_key_missing (w : World) :
  config_file_of (config_dir w) = Missing ->
  load_api_key w = Ret PyNone (record StoreExists w).
Proof.
  intros Hf. destruct w as [a d i e]. cbn in Hf.
  destruct d as [| | node]; cbn in Hf; try subst node; reflexivity.
Qed.

Lemma load_api_key_unreadable (w : World) :
  config_file_of (config_dir w) = RegularFile Undecodable
  \/ config_file_of (config_dir w) = Directory ->
  load_api_key w = Ret PyNone (record StoreRead (record StoreExists w)).
Proof.
  intros Hf. destruct w as [a d i e]. cbn in Hf.
  destruct d as [| | node]; cbn in Hf; try (destruct Hf; discriminate).
  destruct Hf; subst node; reflexivity.
Qed.

(** [load_api_key] returns in every state and leaves the store, the pending
    input and the arguments as they were; it adds store accesses only. *)
Lemma load_api_key_returns (w : World) :
  exists v w' evs,
    load_api_key w = Ret v w'
    /\ config_dir w' = config_dir w /\ stdin w' = stdin w /\ argv w' = argv w
    /\ events w' = events w ++ evs
    /\ forallb (fun e => negb (is_input e) && negb (is_output e)) evs = true.
Proof.
  destruct (config_file_of (config_dir w)) as [| [text |] |] eqn:Hf.
  - rewrite load_api_key_missing by assumption.
    eexists _, _, [StoreExists]. repeat split.
  - rewrite (load_api_key_text w text) by assumption.
    eexists _, _, [StoreExists; StoreRead]. repeat split.
    cbn. rewrite <- app_assoc. reflexivity.
  - rewrite load_api_key_unreadable by auto.
    eexists _, _, [StoreExists; StoreRead]. repeat split.
    cbn. rewrite <- app_assoc. reflexivity.
  - rewrite load_api_key_unreadable by auto.
    eexists _, _, [StoreExists; StoreRead]. repeat split.
    cbn. rewrite <- app_assoc. reflexivity.
Qed.

Lemma save_then_load (secret : pystr) (w w1 : World) :
  well_formed secret ->
  save_api_key secret w = Ret tt w1 ->
  load_api_key w1
  = Ret (PyStr (join_surrogates secret)) (record StoreRead (record StoreExists w1)).
Proof.
  intros Hwf Hsave.
  pose proof (save_api_key_returns _ _ _ Hsave) as Hw.
  rewrite save_api_key_writable in Hsave by assumption.
  injection Hsave as <-.
  rewrite (load_api_key_text _ (dumps [(lit "api_key", secret)])) by reflexivity.
  rewrite loads_dumps_api_key by assumption. reflexivity.
Qed.

(** C1 (as amended): for every secret string in which no high surrogate is
    directly followed by a low surrogate, whenever [save_api_key] returns,
    [load_api_key] on the resulting state returns exactly the saved secret;
    and [save_api_key] does return on every writable store. *)
Theorem save_then_load_roundtrip (secret : pystr) (w : World) :
  well_formed secret -> no_surrogate_pair secret = true ->
  (forall w1, save_api_key secret w = Ret tt w1 ->
     exists w2, load_api_key w1 = Ret (PyStr secret) w2
                /\ config_dir w2 = config_dir w1)
  /\ (store_writable (config_dir w) = true ->
      exists w1, save_api_key secret w = Ret tt w1).
Proof.
  intros Hwf Hpair. split.
  - intros w1 Hsave. rewrite (save_then_load secret w w1) by assumption.
    apply join_surrogates_fixed in Hpair. rewrite Hpair.
    eexists. split; reflexivity.
  - intros Hw. rewrite save_api_key_writable by assumption. eexists. reflexivity.
Qed.

(** The round trip returns the saved secret exactly when the secret holds
    no surrogate pair. *)
Lemma save_then_load_exact (secret : pystr) (w w1 w2 : World) (v : value) :
  well_formed secret ->
  save_api_key secret w = Ret tt w1 ->
  load_api_key w1 = Ret v w2 ->
  v = PyStr secret <-> no_surrogate_pair secret = true.
Proof.
  intros Hwf Hsave Hload.
  rewrite (save_then_load secret w w1) in Hload by assumption.
  injection Hload as <- _. rewrite <- join_surrogates_fixed.
  split; [intros H; injection H; auto | intros ->; reflexivity].
Qed.

(** C1 (as stated) fails: the two code points U+D83D U+DE00 are written as
    two escapes and read back as the single code point U+1F600. *)
Lemma save_then_load_surrogate_pair :
  exists w1 w2,
    save_api_key [0xD83D; 0xDE00] (world_of [lit "job_search.py"] DirMissing []) = Ret tt w1
    /\ load_api_key w1 = Ret (PyStr [0x1F600]) w2
    /\ PyStr [0x1F600] <> PyStr [0xD83D; 0xDE00].
Proof.
  exists (final_world
            (save_api_key [0xD83D; 0xDE00]
               (world_of [lit "job_search.py"] DirMissing []))).
  exists (final_world
            (load_api_key
               (final_world
                  (save_api_key [0xD83D; 0xDE00]
                     (world_of [lit "job_search.py"] DirMissing []))))).
  split; [vm_compute; reflexivity |].
  split; [vm_compute; reflexivity | discriminate].
Qed.

(** C9: when the file parses as JSON but the document is not a mapping, or
    is a mapping without the key [api_key], [load_api_key] returns [None]
    and raises nothing. *)
Theorem load_api_key_no_field (w : World) (text : pystr) (doc : value) :
  config_file_of (config_dir w) = RegularFile (TextData text) ->
  loads text = Some doc ->
  (forall pairs, doc = PyDict pairs -> dict_get pairs (lit "api_key") = None) ->
  exists w', load_api_key w = Ret PyNone w' /\ config_dir w' = config_dir w.
Proof.
  intros Hf Hl Hno. rewrite (load_api_key_text w text Hf), Hl.
  destruct doc; try (eexists; split; reflexivity).
  rewrite (Hno pairs eq_refl). eexists; split; reflexivity.
Qed.

Lemma remove_api_key_present (w : World) (data : FileData) :
  config_file_of (config_dir w) = RegularFile data ->
  remove_api_key w
  = Ret tt {| argv := argv w; config_dir := DirPresent Missing; stdin := stdin w;
              events := events w ++ [StoreExists; StoreUnlink; Output removed_notice] |}.
Proof.
  intros Hf. destruct w as [a d i e]. cbn in Hf.
  destruct d as [| | node]; cbn in Hf; try discriminate. subst node.
  unfold remove_api_key, bind, CONFIG_FILE_exists, CONFIG_FILE_unlink, print,
    record, set_config_dir. cbn. repeat rewrite <- app_assoc. reflexivity.
Qed.

Lemma remove_api_key_missing (w : World) :
  config_file_of (config_dir w) = Missing ->
  remove_api_key w
  = Ret tt {| argv := argv w; config_dir := config_dir w; stdin := stdin w;
              events := events w ++ [StoreExists; Output nothing_to_remove_notice] |}.
Proof.
  intros Hf. destruct w as [a d i e]. cbn in Hf.
  unfold remove_api_key, bind, CONFIG_FILE_exists, print, record.
  destruct d as [| | node]; cbn in Hf; try subst node; cbn;
    repeat rewrite <- app_assoc; reflexivity.
Qed.

Lemma remove_api_key_returns (w w1 : World) :
  remove_api_key w = Ret tt w1 -> config_file_of (config_dir w1) = Missing.
Proof.
  destruct (config_file_of (config_dir w)) as [| data |] eqn:Hf.
  - rewrite remove_api_key_missing by assumption. intros H. injection H as <-. exact Hf.
  - rewrite (remove_api_key_present w data) by assumption.
    intros H. injection H as <-. reflexivity.
  - destruct w as [a d i e]. cbn in Hf.
    destruct d as [| | node]; cbn in Hf; try discriminate. subst node.
    discriminate.
Qed.

(** C6: [remove_api_key] deletes an existing configuration file and reports
    the deletion, after which [load_api_key] returns [None]; when there is
    no file it reports that nothing was stored and leaves the file system
    as it was; a removal after a removal finds nothing to remove. *)
Theorem remove_api_key_spec (w : World) :
  (forall data, config_file_of (config_dir w) = RegularFile data ->
     exists w1,
       remove_api_key w = Ret tt w1
       /\ config_dir w1 = DirPresent Missing
       /\ events w1 = events w ++ [StoreExists; StoreUnlink; Output removed_notice]
       /\ exists w2, load_api_key w1 = Ret PyNone w2)
  /\ (config_file_of (config_dir w) = Missing ->
      exists w1,
        remove_api_key w = Ret tt w1
        /\ config_dir w1 = config_dir w
        /\ events w1 = events w ++ [StoreExists; Output nothing_to_remove_notice])
  /\ (forall w1, remove_api_key w = Ret tt w1 ->
      exists w2,
        remove_api_key w1 = Ret tt w2
        /\ config_dir w2 = config_dir w1
        /\ events w2 = events w1 ++ [StoreExists; Output nothing_to_remove_notice]).
Proof.
  split; [| split].
  - intros data Hf. rewrite (remove_api_key_present w data Hf).
    eexists. repeat split. eexists. apply load_api_key_missing. reflexivity.
  - intros Hf. rewrite (remove_api_key_missing w Hf). eexists. repeat split.
  - intros w1 H. apply remove_api_key_returns in H.
    rewrite (remove_api_key_missing w1 H). eexists. repeat split.
Qed.

(* ================================================================== *)
(** ** Reading the response *)

Lemma count_calls_print (evs : list Event) (s : pystr) :
  count_calls (evs ++ [Output s]) = count_calls evs.
Proof.
  unfold count_calls. rewrite filter_app, length_app. cbn. lia.
Qed.


(* ================================================================== *)
(** ** Prompting for the key *)

Lemma input_line (prompt line : pystr) (rest : list pystr) (w : World) :
  stdin w = line :: rest ->
  input prompt w
  = Ret line {| argv := argv w; config_dir := config_dir w; stdin := rest;
                events := events w ++ [Input prompt] |}.
Proof. intros H. unfold input. rewrite H. reflexivity. Qed.

Section Properties.

Set Default Proof Using "Type".

Variable float_truth : pystr -> bool.
Variable unicode_lower : pystr -> pystr.
Variable remote : nat -> value -> Request -> Outcome.

Lemma get_api_key_prompts (w w1 : World) (v : value) (line : pystr) (rest : list pystr) :
  load_api_key w = Ret v w1 -> truthy float_truth v = false ->
  stdin w1 = line :: rest ->
  get_api_key float_truth w
  = ((if nonempty (strip line) then save_api_key (strip line) else ret tt) ;;
     ret (PyStr (strip line)))
      {| argv := argv w1; config_dir := config_dir w1; stdin := rest;
         events := events w1
           ++ [Output ([10] ++ lit "No API key found. Please enter your Anthropic API key.");
               Output (lit "(You can get one from https://console.anthropic.com/)");
               Input (lit "API Key: ")] |}.
Proof.
  intros Hload Hf Hin.
  unfold get_api_key. unfold bind at 1. rewrite Hload, Hf. cbn [negb].
  unfold bind at 1. unfold print at 1. cbn beta iota.
  unfold bind at 1. unfold print at 1. cbn beta iota.
  unfold bind at 1.
  rewrite (input_line _ line rest) by (cbn; assumption).
  cbn beta iota zeta. cbn [record argv config_dir stdin events].
  repeat rewrite <- app_assoc. reflexivity.
Qed.

(** C7 (as amended): [get_api_key] returns the stored value without
    prompting when [load_api_key] finds one that counts as true (for a
    string: a non-empty one); otherwise it prompts and strips the answer,
    and exactly when the stripped answer is non-empty it saves the stripped
    answer (on a store that can be written) before returning it. *)
Theorem get_api_key_spec (w w1 : World) (v : value) :
  load_api_key w = Ret v w1 ->
  (truthy float_truth v = true ->
     get_api_key float_truth w = Ret v w1
     /\ stdin w1 = stdin w
     /\ exists evs, events w1 = events w ++ evs
                    /\ forallb (fun e => negb (is_input e)) evs = true)
  /\ (truthy float_truth v = false ->
      forall line rest, stdin w = line :: rest ->
        let asked :=
          events w1
          ++ [Output ([10] ++ lit "No API key found. Please enter your Anthropic API key.");
              Output (lit "(You can get one from https://console.anthropic.com/)");
              Input (lit "API Key: ")] in
        (strip line <> [] -> store_writable (config_dir w) = true ->
           exists w2,
             get_api_key float_truth w = Ret (PyStr (strip line)) w2
             /\ config_dir w2 = stored (dumps [(lit "api_key", strip line)])
             /\ stdin w2 = rest
             /\ events w2 = asked ++ [StoreMkdir; StoreWrite; Output saved_notice])
        /\ (strip line = [] ->
           exists w2,
             get_api_key float_truth w = Ret (PyStr []) w2
             /\ config_dir w2 = config_dir w
             /\ stdin w2 = rest
             /\ events w2 = asked)).
Proof.
  intros Hload.
  destruct (load_api_key_returns w) as (v' & w' & evs & Hl & Hd & Hi & Ha & He & Hev).
  rewrite Hload in Hl. injection Hl as <- <-.
  split.
  - intros Ht. unfold get_api_key, bind. rewrite Hload, Ht. cbn [negb].
    repeat split; [assumption |].
    exists evs. split; [assumption |].
    apply forallb_forall. intros e Hin.
    rewrite forallb_forall in Hev. specialize (Hev e Hin).
    apply andb_true_iff in Hev. tauto.
  - intros Hf line rest Hin. cbv zeta.
    rewrite (get_api_key_prompts w w1 v line rest Hload Hf) by congruence.
    unfold bind. split.
    + intros Hne Hw. apply nonempty_true in Hne. rewrite Hne.
      rewrite save_api_key_writable by (cbn; congruence).
      eexists. split; [reflexivity |]. cbn. repeat split.
    + intros Hempty. rewrite Hempty. cbn [nonempty].
      eexists. split; [reflexivity |]. cbn. repeat split; assumption.
Qed.

(* ================================================================== *)
(** ** The search *)

(** The world in which the answer of the service is handled. *)
Lemma search_jobs_calls (keywords location : pystr) (api_key : value) (w : World) :
  search_jobs remote keywords location api_key w
  = (let outcome :=
       remote (count_calls (events w)) api_key (search_request keywords location) in
     match outcome with
     | Returns blocks =>
         let result := join [10] (collect_text blocks []) in
         if nonempty result then
           print separator ;; print result ;; print separator
         else print no_results_notice
     | RaisesAuthenticationError _ =>
         print invalid_key_message ;; print reset_hint ;; sys_exit 1
     | RaisesException msg =>
         print ([10; 0x274C] ++ lit " Error: " ++ msg) ;; sys_exit 1
     end)
      {| argv := argv w; config_dir := config_dir w; stdin := stdin w;
         events := events w
           ++ [Output (searching_notice keywords location);
               RemoteCall api_key (search_request keywords location)] |}.
Proof.
  unfold search_jobs. unfold bind at 1. unfold print at 1. cbn beta iota.
  unfold bind at 1. unfold messages_create. cbn beta iota.
  unfold record. cbn [argv config_dir stdin events].
  rewrite count_calls_print. repeat rewrite <- app_assoc. reflexivity.
Qed.




Lemma search_jobs_sends (keywords location : pystr) (api_key : value) (w : World) :
  exists evs,
    events (final_world (search_jobs remote keywords location api_key w))
    = events w ++ [Output (searching_notice keywords location);
                   RemoteCall api_key (search_request keywords location)] ++ evs.
Proof.
  unfold search_jobs. unfold bind at 1. unfold print at 1. cbn beta iota.
  unfold bind at 1. unfold messages_create. cbn beta iota.
  unfold record. cbn [argv config_dir stdin events].
  destruct (remote _ api_key _) as [blocks | msg | msg].
  - cbn zeta. destruct (nonempty _).
    + eexists. cbn. repeat rewrite <- app_assoc. reflexivity.
    + eexists. cbn. repeat rewrite <- app_assoc. reflexivity.
  - eexists. cbn. repeat rewrite <- app_assoc. reflexivity.
  - eexists. cbn. repeat rewrite <- app_assoc. reflexivity.
Qed.

(** C5: the request holds a single message, of role user, whose content
    contains the keywords and the location as they were given; its token
    budget is 4000; and this is the request [search_jobs] sends. *)
Theorem search_request_contents (keywords location : pystr) :
  (exists m,
     messages (search_request keywords location) = [m]
     /\ role m = lit "user"
     /\ substring keywords (content m)
     /\ substring location (content m))
  /\ max_tokens (search_request keywords location) = 4000
  /\ (forall api_key w,
        In (RemoteCall api_key (search_request keywords location))
           (events (final_world (search_jobs remote keywords location api_key w)))).
Proof.
  split; [| split].
  - eexists. split; [reflexivity |]. split; [reflexivity |]. cbn [content].
    unfold search_prompt. split.
    + apply substring_middle.
    + exists (lit "Search for current job openings for '" ++ keywords
              ++ lit "' in or near '").
      eexists. repeat rewrite <- app_assoc. reflexivity.
  - reflexivity.
  - intros api_key w. destruct (search_jobs_sends keywords location api_key w) as [evs ->].
    apply in_or_app. right. right. left. reflexivity.
Qed.

(* ================================================================== *)
(** ** The command line *)

(** The literal in front of the argument does not matter for the encoder. *)
Lemma print_argument_unknown (arg : pystr) (w : World) :
  print_argument (lit "Unknown argument: " ++ arg) w
  = if encodable arg then print (lit "Unknown argument: " ++ arg) w
    else Raise UnicodeEncodeError w.
Proof.
  unfold print_argument, encodable. rewrite forallb_app. reflexivity.
Qed.

Lemma main_dispatch (depth : nat) (w : World) (prog arg : pystr) (rest : list pystr) :
  argv w = prog :: arg :: rest ->
  main float_truth unicode_lower remote (S depth) w
  = (let arg := lower unicode_lower arg in
     if str_eqb arg (lit "--help") || str_eqb arg (lit "-h") then print_help
     else if str_eqb arg (lit "--save-key") then
       print (lit "Enter your Anthropic API key:") ;;
       line <- input (lit "API Key: ") ;;
       let api_key := strip line in
       if nonempty api_key then save_api_key api_key
       else print (lit "No API key entered.")
     else if str_eqb arg (lit "--reset-key") then remove_api_key
     else
       print_argument (lit "Unknown argument: " ++ arg) ;;
       print (lit "Use --help to see available options.")) w.
Proof.
  intros Hargv. cbn [main]. unfold bind at 1. unfold sys_argv. rewrite Hargv.
  reflexivity.
Qed.

(** C8 (as amended): an argument whose lowercase form is none of the flags
    and holds no surrogate makes [main] print the unknown-argument notice
    and return, so that the process ends with status 0; nothing but the two
    lines is printed, the store is not accessed, no input is read and no
    request is sent. *)
Theorem main_unknown_argument (depth : nat) (w : World) (prog arg : pystr)
    (rest : list pystr) :
  argv w = prog :: arg :: rest ->
  lower unicode_lower arg <> lit "--help" ->
  lower unicode_lower arg <> lit "-h" ->
  lower unicode_lower arg <> lit "--save-key" ->
  lower unicode_lower arg <> lit "--reset-key" ->
  encodable (lower unicode_lower arg) = true ->
  exists w',
    main float_truth unicode_lower remote (S depth) w = Ret tt w'
    /\ exit_status (main float_truth unicode_lower remote (S depth) w) = 0
    /\ events w'
       = events w ++ [Output (lit "Unknown argument: " ++ lower unicode_lower arg);
                      Output (lit "Use --help to see available options.")]
    /\ config_dir w' = config_dir w
    /\ stdin w' = stdin w.
Proof.
  intros Hargv H1 H2 H3 H4 Henc.
  rewrite (main_dispatch depth w prog arg rest Hargv). cbn zeta.
  rewrite !str_eqb_neq by assumption. cbn [orb].
  unfold bind. rewrite print_argument_unknown, Henc. unfold print.
  eexists. split; [reflexivity |]. split; [reflexivity |].
  cbn. repeat rewrite <- app_assoc. repeat split.
Qed.

(** The hypothesis on the encoder is needed: an argument whose lowercase
    form holds a surrogate ends the run at the first [print], with nothing
    printed. *)
Lemma main_unknown_argument_refused (depth : nat) (w : World) (prog arg : pystr)
    (rest : list pystr) :
  argv w = prog :: arg :: rest ->
  lower unicode_lower arg <> lit "--help" ->
  lower unicode_lower arg <> lit "-h" ->
  lower unicode_lower arg <> lit "--save-key" ->
  lower unicode_lower arg <> lit "--reset-key" ->
  encodable (lower unicode_lower arg) = false ->
  main float_truth unicode_lower remote (S depth) w = Raise UnicodeEncodeError w.
Proof.
  intros Hargv H1 H2 H3 H4 Henc.
  rewrite (main_dispatch depth w prog arg rest Hargv). cbn zeta.
  rewrite !str_eqb_neq by assumption. cbn [orb].
  unfold bind. rewrite print_argument_unknown, Henc. reflexivity.
Qed.

Ltac run_store :=
  unfold observe, save_api_key, remove_api_key, print_help, ensure_config_dir,
    json_dump, bind, print, input, CONFIG_DIR_mkdir, CONFIG_FILE_write,
    CONFIG_FILE_exists, CONFIG_FILE_unlink, record, set_config_dir, with_argv,
    final_world;
  cbn [argv config_dir stdin events].

Lemma lower_ascii (a : pystr) :
  isascii a = true -> lower unicode_lower a = map ascii_lower a.
Proof. intros H. unfold lower. rewrite H. reflexivity. Qed.

(** C10: [main] dispatches on the lowercase form of its argument: two
    arguments with the same lowercase form lead to the same run, and each
    flag is its own lowercase form, so that every casing of a flag acts as
    the flag does. *)
Theorem main_flags_case_insensitive (depth : nat) (w : World) (prog : pystr)
    (rest : list pystr) :
  (forall a b,
     lower unicode_lower a = lower unicode_lower b ->
     observe (main float_truth unicode_lower remote (S depth)
                (with_argv (prog :: a :: rest) w))
     = observe (main float_truth unicode_lower remote (S depth)
                  (with_argv (prog :: b :: rest) w)))
  /\ (forall a, isascii a = true -> lower unicode_lower a = map ascii_lower a)
  /\ lower unicode_lower (lit "--help") = lit "--help"
  /\ lower unicode_lower (lit "-h") = lit "-h"
  /\ lower unicode_lower (lit "--save-key") = lit "--save-key"
  /\ lower unicode_lower (lit "--reset-key") = lit "--reset-key".
Proof.
  split; [| split; [apply lower_ascii | repeat split]].
  intros a b Hab.
  rewrite (main_dispatch depth _ prog a rest) by reflexivity.
  rewrite (main_dispatch depth _ prog b rest) by reflexivity.
  cbn zeta. rewrite Hab.
  destruct w as [args d lines evs].
  destruct (str_eqb (lower unicode_lower b) (lit "--help")
            || str_eqb (lower unicode_lower b) (lit "-h")).
  { run_store. reflexivity. }
  destruct (str_eqb (lower unicode_lower b) (lit "--save-key")).
  { run_store. destruct lines as [| line lines]; [reflexivity |].
    cbn beta iota zeta. destruct (nonempty (strip line)); [| reflexivity].
    destruct d as [| | [| data |]]; reflexivity. }
  destruct (str_eqb (lower unicode_lower b) (lit "--reset-key")).
  { run_store. destruct d as [| | [| data |]]; reflexivity. }
  run_store. rewrite !print_argument_unknown.
  destruct (encodable (lower unicode_lower b)); reflexivity.
Qed.

End Properties.

(* ================================================================== *)
(** ** More on the credential store *)

Lemma save_api_key_unwritable (secret : pystr) (w : World) :
  store_writable (config_dir w) = false ->
  (config_dir w = DirNotADirectory
   /\ save_api_key secret w = Raise FileExistsError (record StoreMkdir w))
  \/ (config_dir w = DirPresent Directory
      /\ save_api_key secret w
         = Raise IsADirectoryError (record StoreWrite (record StoreMkdir w))).
Proof.
  destruct w as [a d i e]. cbn [config_dir].
  destruct d as [| | [| data |]]; cbn [store_writable]; try discriminate; intros _.
  - left. split; reflexivity.
  - right. split; reflexivity.
Qed.

(** X2: [save_api_key] reports success exactly when it has written the
    file.  On a store that cannot be written it raises ([FileExistsError]
    when the directory path is not a directory, [IsADirectoryError] when
    the file path is a directory), prints nothing and leaves the store as it
    was. *)
Theorem save_api_key_fails_cleanly (secret : pystr) (w : World) :
  store_writable (config_dir w) = false ->
  exists e w',
    save_api_key secret w = Raise e w'
    /\ (e = FileExistsError \/ e = IsADirectoryError)
    /\ config_dir w' = config_dir w
    /\ stdin w' = stdin w
    /\ exists evs, events w' = events w ++ evs
                   /\ forallb (fun ev => negb (is_output ev)) evs = true.
Proof.
  intros Hw. destruct (save_api_key_unwritable secret w Hw) as [[Hd ->] | [Hd ->]].
  - eexists _, _. split; [reflexivity |]. split; [auto |].
    repeat split. exists [StoreMkdir]. split; reflexivity.
  - eexists _, _. split; [reflexivity |]. split; [auto |].
    repeat split. exists [StoreMkdir; StoreWrite]. split; [| reflexivity].
    cbn. rewrite <- app_assoc. reflexivity.
Qed.

(** X3: a save replaces whatever was saved before: after two saves the
    file holds the second secret alone, exactly as if only the second had
    been saved, and [load_api_key] returns what the decoder reads of it. *)
Theorem save_api_key_overwrites (first second : pystr) (w w1 : World) :
  well_formed second ->
  save_api_key first w = Ret tt w1 ->
  exists w2 w3,
    save_api_key second w1 = Ret tt w2
    /\ config_dir w2 = stored (dumps [(lit "api_key", second)])
    /\ load_api_key w2 = Ret (PyStr (join_surrogates second)) w3.
Proof.
  intros Hwf H1.
  apply save_api_key_returns in H1 as Hw.
  rewrite save_api_key_writable in H1 by assumption. injection H1 as <-.
  rewrite save_api_key_writable by reflexivity.
  eexists _, _. split; [reflexivity |]. split; [reflexivity |].
  rewrite (load_api_key_text _ (dumps [(lit "api_key", second)])) by reflexivity.
  rewrite loads_dumps_api_key by assumption. reflexivity.
Qed.

Lemma hexdigit_printable (d : Z) :
  0 <= d < 16 -> printable_ascii (hexdigit d) = true.
Proof.
  intros H. unfold printable_ascii, hexdigit.
  destruct (Z.ltb_spec d 10); lia.
Qed.

Lemma format_04x_printable (n : Z) :
  forallb printable_ascii (format_04x n) = true.
Proof.
  unfold format_04x. cbn [forallb].
  rewrite !hexdigit_printable by (apply Z.mod_pos_bound; lia). reflexivity.
Qed.

Lemma escape_char_printable (c : Z) :
  forallb printable_ascii (escape_char c) = true.
Proof.
  unfold escape_char.
  repeat match goal with
  | |- context [if ?a =? ?b then _ else _] => destruct (a =? b); [reflexivity |]
  end.
  destruct ((32 <=? c) && (c <=? 126)) eqn:E.
  - cbn [forallb]. unfold printable_ascii. rewrite E. reflexivity.
  - destruct (c <? 0x10000).
    + cbn [forallb]. rewrite format_04x_printable. reflexivity.
    + cbv zeta. rewrite forallb_app. cbn [forallb].
      rewrite !format_04x_printable. reflexivity.
Qed.

Lemma encode_basestring_ascii_printable (s : pystr) :
  forallb printable_ascii (encode_basestring_ascii s) = true.
Proof.
  unfold encode_basestring_ascii. rewrite !forallb_app. cbn [forallb].
  replace (forallb printable_ascii (flat_map escape_char s)) with true;
    [reflexivity |].
  symmetry. induction s as [| c s IH]; [reflexivity |].
  cbn [flat_map]. rewrite forallb_app, escape_char_printable, IH. reflexivity.
Qed.

Lemma join_printable (sep : pystr) (items : list pystr) :
  forallb printable_ascii sep = true ->
  forallb (forallb printable_ascii) items = true ->
  forallb printable_ascii (join sep items) = true.
Proof.
  intros Hsep. induction items as [| x items IH]; [reflexivity |].
  cbn [forallb]. intros H. apply andb_true_iff in H as [Hx Hrest].
  cbn [join]. destruct items as [| y items]; [exact Hx |].
  rewrite !forallb_app, Hx, Hsep, (IH Hrest). reflexivity.
Qed.

Lemma dumps_printable (config : list (pystr * pystr)) :
  forallb printable_ascii (dumps config) = true.
Proof.
  unfold dumps. rewrite !forallb_app.
  rewrite join_printable; [reflexivity | reflexivity |].
  induction config as [| [k v] config IH]; [reflexivity |].
  cbn [map forallb fst snd].
  rewrite !forallb_app, !encode_basestring_ascii_printable, IH. reflexivity.
Qed.

(** X4: whatever the secret, the file that [save_api_key] writes holds
    printable ASCII only (space to tilde): no control character, no
    character outside ASCII, so that the locale's encoding does not matter
    for it. *)
Theorem saved_file_is_ascii (secret : pystr) (w w1 : World) :
  save_api_key secret w = Ret tt w1 ->
  exists text,
    config_dir w1 = stored text
    /\ forallb printable_ascii text = true.
Proof.
  intros H. apply save_api_key_returns in H as Hw.
  rewrite save_api_key_writable in H by assumption. injection H as <-.
  eexists. split; [reflexivity |]. apply dumps_printable.
Qed.

(** X5: removing after saving always succeeds and leaves the directory
    without the file, whatever was stored before the save. *)
Theorem save_then_remove (secret : pystr) (w w1 : World) :
  save_api_key secret w = Ret tt w1 ->
  exists w2 w3,
    remove_api_key w1 = Ret tt w2
    /\ config_dir w2 = DirPresent Missing
    /\ load_api_key w2 = Ret PyNone w3.
Proof.
  intros H. apply save_api_key_returns in H as Hw.
  rewrite save_api_key_writable in H by assumption. injection H as <-.
  rewrite (remove_api_key_present _ (TextData (dumps [(lit "api_key", secret)])))
    by reflexivity.
  eexists _, _. split; [reflexivity |]. split; [reflexivity |].
  apply load_api_key_missing. reflexivity.
Qed.

(* ================================================================== *)
(** ** How a call moves the world *)

Lemma join_surrogates_nonempty (s : pystr) :
  s <> [] -> join_surrogates s <> [].
Proof.
  destruct s as [| hi [| lo r]]; [congruence | discriminate |].
  intros _. rewrite join_surrogates_unfold.
  destruct (is_high_surrogate hi && is_low_surrogate lo); discriminate.
Qed.

Lemma lstrip_well_formed (s : pystr) : well_formed s -> well_formed (lstrip s).
Proof.
  unfold well_formed. induction s as [| c s IH]; intros H; [exact H |].
  cbn [lstrip]. destruct (isspace c); [| exact H].
  apply IH. inversion H; assumption.
Qed.

Lemma strip_well_formed (s : pystr) : well_formed s -> well_formed (strip s).
Proof.
  unfold strip, rstrip, well_formed. intros H.
  apply Forall_rev. apply lstrip_well_formed. apply Forall_rev.
  apply lstrip_well_formed. exact H.
Qed.

Lemma advances_refl (P : Event -> Prop) (w : World) : advances P w w.
Proof.
  repeat split; [exists 0%nat; reflexivity |].
  exists []. split; [rewrite app_nil_r; reflexivity | constructor].
Qed.

Lemma advances_trans (P : Event -> Prop) (w1 w2 w3 : World) :
  advances P w1 w2 -> advances P w2 w3 -> advances P w1 w3.
Proof.
  intros (Ha & [k Hk] & e1 & He1 & Hp1) (Ha' & [k' Hk'] & e2 & He2 & Hp2).
  repeat split.
  - congruence.
  - exists (k' + k)%nat. rewrite Hk', Hk, skipn_skipn. reflexivity.
  - exists (e1 ++ e2). split; [rewrite He2, He1, app_assoc; reflexivity |].
    apply Forall_app. split; assumption.
Qed.

Lemma advances_weaken (P Q : Event -> Prop) (w w' : World) :
  (forall e, P e -> Q e) -> advances P w w' -> advances Q w w'.
Proof.
  intros HPQ (Ha & Hk & evs & He & Hp). repeat split; try assumption.
  exists evs. split; [assumption |]. revert Hp. apply Forall_impl. exact HPQ.
Qed.

Lemma advances_record (P : Event -> Prop) (e : Event) (w : World) :
  P e -> advances P w (record e w).
Proof.
  intros H. repeat split; [exists 0%nat; reflexivity |].
  exists [e]. split; [reflexivity | repeat constructor; exact H].
Qed.

Lemma advances_consume (P : Event -> Prop) (prompt : pystr) (w : World) :
  P (Input prompt) -> advances P w (consume prompt w).
Proof.
  intros H. repeat split;
    [exists 1%nat; unfold consume; cbn [stdin]; destruct (stdin w); reflexivity |].
  exists [Input prompt]. split; [reflexivity | repeat constructor; exact H].
Qed.

Lemma advances_set_config_dir (P : Event -> Prop) (d : ConfigDir) (w : World) :
  advances P w (set_config_dir d w).
Proof.
  repeat split; [exists 0%nat; reflexivity |].
  exists []. split; [cbn; rewrite app_nil_r; reflexivity | constructor].
Qed.

Lemma advances_stdin_length (P : Event -> Prop) (w w' : World) :
  advances P w w' -> (List.length (stdin w') <= List.length (stdin w))%nat.
Proof.
  intros (_ & [k Hk] & _). rewrite Hk, length_skipn. lia.
Qed.

Lemma input_cases (prompt : pystr) (w : World) :
  match stdin w with
  | [] => input prompt w = Raise EOFError (record (Input prompt) w)
  | line :: _ => input prompt w = Ret line (consume prompt w)
  end.
Proof. unfold input, consume. destruct (stdin w); reflexivity. Qed.

(* ================================================================== *)
(** ** The key, stored or asked for *)

Lemma load_api_key_world (w : World) :
  exists v,
    load_api_key w = Ret v (record StoreExists w)
    \/ load_api_key w = Ret v (record StoreRead (record StoreExists w)).
Proof.
  destruct (config_file_of (config_dir w)) as [| [text |] |] eqn:Hf.
  - eexists. left. apply load_api_key_missing. assumption.
  - eexists. right. apply (load_api_key_text w text). assumption.
  - eexists. right. apply load_api_key_unreadable. auto.
  - eexists. right. apply load_api_key_unreadable. auto.
Qed.

Lemma load_api_key_advances (w : World) :
  advances (fun e => is_call e = false) w (final_world (load_api_key w)).
Proof.
  destruct (load_api_key_world w) as [v [-> | ->]]; cbn [final_world].
  - apply advances_record. reflexivity.
  - eapply advances_trans; apply advances_record; reflexivity.
Qed.

Lemma save_api_key_advances (secret : pystr) (w : World) :
  advances (fun e => is_call e = false) w (final_world (save_api_key secret w)).
Proof.
  destruct (store_writable (config_dir w)) eqn:Hw.
  - rewrite save_api_key_writable by assumption. cbn [final_world].
    repeat split; [exists 0%nat; reflexivity |].
    eexists. split; [reflexivity |]. repeat constructor.
  - destruct (save_api_key_unwritable secret w Hw) as [[_ ->] | [_ ->]];
      cbn [final_world].
    + apply advances_record. reflexivity.
    + eapply advances_trans; apply advances_record; reflexivity.
Qed.

Lemma save_api_key_raises (secret : pystr) (w w' : World) (e : Exn) :
  save_api_key secret w = Raise e w' ->
  e = FileExistsError \/ e = IsADirectoryError.
Proof.
  destruct (store_writable (config_dir w)) eqn:Hw.
  - rewrite save_api_key_writable by assumption. discriminate.
  - destruct (save_api_key_unwritable secret w Hw) as [[_ ->] | [_ ->]];
      intros H; injection H as <- _; auto.
Qed.

Section PromptProperties.

Set Default Proof Using "Type".

Variable float_truth : pystr -> bool.
Variable unicode_lower : pystr -> pystr.
Variable remote : nat -> value -> Request -> Outcome.

(** What [get_api_key] does after [load_api_key], by cases. *)
Lemma get_api_key_cases (w w1 : World) (v : value) :
  load_api_key w = Ret v w1 ->
  let asked := record (Output console_notice) (record (Output no_key_notice) w1) in
  get_api_key float_truth w
  = if truthy float_truth v then Ret v w1
    else
      match stdin w1 with
      | [] => Raise EOFError (record (Input key_prompt) asked)
      | line :: _ =>
          if nonempty (strip line) then
            match save_api_key (strip line) (consume key_prompt asked) with
            | Ret _ w2 => Ret (PyStr (strip line)) w2
            | Raise e w2 => Raise e w2
            end
          else Ret (PyStr (strip line)) (consume key_prompt asked)
      end.
Proof.
  intros Hload. cbv zeta.
  unfold get_api_key. unfold bind at 1. rewrite Hload.
  destruct (truthy float_truth v); cbn [negb]; [reflexivity |].
  unfold bind at 1. unfold print at 1. cbn beta iota.
  unfold bind at 1. unfold print at 1. cbn beta iota.
  unfold bind at 1.
  pose proof (input_cases (lit "API Key: ")
                (record (Output (lit "(You can get one from https://console.anthropic.com/)"))
                   (record (Output ([10] ++ lit "No API key found. Please enter your Anthropic API key."))
                      w1))) as Hin.
  cbn [record stdin] in Hin.
  destruct (stdin w1) as [| line rest]; rewrite Hin; [reflexivity |].
  cbn beta iota zeta. unfold bind.
  destruct (nonempty (strip line)); [| reflexivity].
  destruct (save_api_key (strip line) _); reflexivity.
Qed.

Lemma get_api_key_advances (w : World) :
  advances (fun e => is_call e = false) w
    (final_world (get_api_key float_truth w)).
Proof.
  pose proof (load_api_key_advances w) as Hl.
  destruct (load_api_key_world w) as [v Hv].
  assert (exists w1, load_api_key w = Ret v w1) as [w1 Hload]
    by (destruct Hv as [-> | ->]; eexists; reflexivity).
  rewrite Hload in Hl. cbn [final_world] in Hl.
  rewrite (get_api_key_cases w w1 v Hload). cbv zeta.
  destruct (truthy float_truth v); [exact Hl |].
  assert (advances (fun e => is_call e = false) w
            (record (Output console_notice) (record (Output no_key_notice) w1)))
    as Hasked.
  { eapply advances_trans; [exact Hl |].
    eapply advances_trans; apply advances_record; reflexivity. }
  destruct (stdin w1) as [| line rest].
  - cbn [final_world]. eapply advances_trans; [exact Hasked |].
    apply advances_record. reflexivity.
  - assert (advances (fun e => is_call e = false) w
              (consume key_prompt
                 (record (Output console_notice) (record (Output no_key_notice) w1))))
      as Hcons.
    { eapply advances_trans; [exact Hasked |]. apply advances_consume. reflexivity. }
    destruct (nonempty (strip line)); [| exact Hcons].
    pose proof (save_api_key_advances (strip line)
                  (consume key_prompt
                     (record (Output console_notice)
                        (record (Output no_key_notice) w1)))) as Hs.
    destruct (save_api_key (strip line) _); cbn [final_world] in *;
      eapply advances_trans; eassumption.
Qed.

Lemma get_api_key_raises (w w' : World) (e : Exn) :
  get_api_key float_truth w = Raise e w' ->
  e = EOFError \/ e = FileExistsError \/ e = IsADirectoryError.
Proof.
  destruct (load_api_key_world w) as [v Hv].
  assert (exists w1, load_api_key w = Ret v w1) as [w1 Hload]
    by (destruct Hv as [-> | ->]; eexists; reflexivity).
  rewrite (get_api_key_cases w w1 v Hload). cbv zeta.
  destruct (truthy float_truth v); [discriminate |].
  destruct (stdin w1) as [| line rest].
  - intros H. injection H as <- _. auto.
  - destruct (nonempty (strip line)); [| discriminate].
    destruct (save_api_key (strip line) _) eqn:Hs; [discriminate |].
    intros H. injection H as <- _.
    apply save_api_key_raises in Hs. destruct Hs; auto.
Qed.

End PromptProperties.

(* ================================================================== *)
(** ** The frame of a search *)

Lemma count_calls_app (evs more : list Event) :
  count_calls (evs ++ more) = (count_calls evs + count_calls more)%nat.
Proof. unfold count_calls. rewrite filter_app, length_app. reflexivity. Qed.

Section SearchProperties.

Set Default Proof Using "Type".

Variable float_truth : pystr -> bool.
Variable unicode_lower : pystr -> pystr.
Variable remote : nat -> value -> Request -> Outcome.

(** The effects of [search_jobs], whatever the service answers. *)
Lemma search_jobs_effects (keywords location : pystr) (api_key : value) (w : World) :
  exists evs,
    events (final_world (search_jobs remote keywords location api_key w))
    = events w
      ++ [Output (searching_notice keywords location);
          RemoteCall api_key (search_request keywords location)]
      ++ evs
    /\ forallb is_output evs = true
    /\ config_dir (final_world (search_jobs remote keywords location api_key w))
       = config_dir w
    /\ stdin (final_world (search_jobs remote keywords location api_key w))
       = stdin w
    /\ argv (final_world (search_jobs remote keywords location api_key w))
       = argv w
    /\ (forall e w',
          search_jobs remote keywords location api_key w = Raise e w' ->
          e = SystemExit 1).
Proof.
  rewrite search_jobs_calls. cbv zeta.
  destruct (remote (count_calls (events w)) api_key
              (search_request keywords location)) as [blocks | msg | msg].
  - destruct (nonempty (join [10] (collect_text blocks []))).
    + eexists [_; _; _]. split; [cbn; repeat rewrite <- app_assoc; reflexivity |].
      repeat split; discriminate.
    + eexists [_]. split; [cbn; repeat rewrite <- app_assoc; reflexivity |].
      repeat split; discriminate.
  - eexists [_; _]. split; [cbn; repeat rewrite <- app_assoc; reflexivity |].
    repeat split. intros e w' H. injection H as <- _. reflexivity.
  - eexists [_]. split; [cbn; repeat rewrite <- app_assoc; reflexivity |].
    repeat split. intros e w' H. injection H as <- _. reflexivity.
Qed.


Lemma search_jobs_advances (keywords location : pystr) (api_key : value) (w : World)
    (P : Event -> Prop) :
  (forall s, P (Output s)) ->
  P (RemoteCall api_key (search_request keywords location)) ->
  advances P w (final_world (search_jobs remote keywords location api_key w))
  /\ stdin (final_world (search_jobs remote keywords location api_key w)) = stdin w.
Proof.
  intros Hout Hcall.
  destruct (search_jobs_effects keywords location api_key w)
    as (evs & He & Hevs & _ & Hs & Ha & _).
  split; [| exact Hs].
  repeat split; [exact Ha | exists 0%nat; rewrite Hs; reflexivity |].
  eexists. split; [exact He |].
  repeat constructor; [apply Hout | exact Hcall |].
  apply Forall_forall. intros e Hin.
  rewrite forallb_forall in Hevs. specialize (Hevs e Hin).
  destruct e; try discriminate. apply Hout.
Qed.

(** One round of the interactive flow, step by step. *)
Lemma main_interactive (depth : nat) (w : World) :
  (List.length (argv w) <= 1)%nat ->
  main float_truth unicode_lower remote (S depth) w
  = match get_api_key float_truth w with
    | Raise e w1 => Raise e w1
    | Ret api_key w1 =>
        if truthy float_truth api_key then
          match stdin w1 with
          | [] => Raise EOFError (record (Input keywords_prompt) (banner w1))
          | line1 :: rest1 =>
              match rest1 with
              | [] =>
                  Raise EOFError
                    (record (Input location_prompt)
                       (consume keywords_prompt (banner w1)))
              | line2 :: _ =>
                  let w4 :=
                    consume location_prompt (consume keywords_prompt (banner w1)) in
                  if nonempty (strip line1) && nonempty (strip line2) then
                    match search_jobs remote (strip line1) (strip line2) api_key w4 with
                    | Raise e w5 => Raise e w5
                    | Ret _ w5 =>
                        let w6 := record (Output ([10] ++ separator)) w5 in
                        match stdin w5 with
                        | [] => Raise EOFError (record (Input again_prompt) w6)
                        | line3 :: _ =>
                            if str_eqb (lower unicode_lower (strip line3)) (lit "y")
                            then main float_truth unicode_lower remote depth
                                   (consume again_prompt w6)
                            else Ret tt (record (Output farewell_notice)
                                           (consume again_prompt w6))
                        end
                    end
                  else
                    Raise (SystemExit 1) (record (Output both_required_notice) w4)
              end
          end
        else Raise (SystemExit 1) (record (Output key_required_notice) w1)
    end.
Proof.
  intros Hargs. cbn [main]. unfold bind at 1. unfold sys_argv.
  replace (1 <? List.length (argv w))%nat with false
    by (symmetry; apply Nat.ltb_ge; exact Hargs).
  unfold bind at 1.
  destruct (get_api_key float_truth w) as [api_key w1 | e w1]; [| reflexivity].
  unfold bind at 1.
  destruct (truthy float_truth api_key); cbn [negb]; [| reflexivity].
  unfold ret at 1. cbn beta iota.
  do 4 (unfold bind at 1; unfold print at 1; cbn beta iota).
  fold (banner w1).
  unfold bind at 1.
  pose proof (input_cases keywords_prompt (banner w1)) as H1.
  change (stdin (banner w1)) with (stdin w1) in H1.
  destruct (stdin w1) as [| line1 rest1] eqn:Hs1; unfold keywords_prompt in H1;
    rewrite H1; [reflexivity |].
  cbn beta iota zeta. unfold bind at 1.
  pose proof (input_cases location_prompt (consume keywords_prompt (banner w1))) as H2.
  change (stdin (consume keywords_prompt (banner w1))) with (tl (stdin w1)) in H2.
  rewrite Hs1 in H2. cbn [tl] in H2.
  destruct rest1 as [| line2 rest2]; unfold location_prompt, keywords_prompt in H2;
    rewrite H2; [reflexivity |].
  cbn beta iota zeta. unfold bind at 1.
  destruct (nonempty (strip line1)), (nonempty (strip line2)); cbn [negb orb andb];
    try reflexivity.
  unfold ret at 1. cbn beta iota. unfold bind at 1.
  fold keywords_prompt location_prompt.
  destruct (search_jobs remote (strip line1) (strip line2) api_key _)
    as [[] w5 | e w5]; [| reflexivity].
  unfold bind at 1. unfold print at 1. cbn beta iota.
  unfold bind at 1.
  pose proof (input_cases again_prompt (record (Output ([10] ++ separator)) w5)) as H3.
  change (stdin (record (Output ([10] ++ separator)) w5)) with (stdin w5) in H3.
  destruct (stdin w5) as [| line3 rest3]; unfold again_prompt in H3; rewrite H3;
    [reflexivity |].
  cbn beta iota zeta.
  destruct (str_eqb (lower unicode_lower (strip line3)) (lit "y")); reflexivity.
Qed.

End SearchProperties.

(* ================================================================== *)
(** ** A run of the program *)

Lemma advances_banner (P : Event -> Prop) (w : World) :
  (forall s, P (Output s)) -> advances P w (banner w).
Proof.
  intros H. unfold banner.
  repeat (eapply advances_trans; [| apply advances_record; apply H]).
  apply advances_refl.
Qed.

Lemma remove_api_key_advances (w : World) :
  advances (fun e => is_call e = false) w (final_world (remove_api_key w)).
Proof.
  destruct (config_file_of (config_dir w)) as [| data |] eqn:Hf.
  - rewrite remove_api_key_missing by assumption. cbn [final_world].
    repeat split; [exists 0%nat; reflexivity |].
    eexists. split; [reflexivity | repeat constructor].
  - rewrite (remove_api_key_present w data) by assumption. cbn [final_world].
    repeat split; [exists 0%nat; reflexivity |].
    eexists. split; [reflexivity | repeat constructor].
  - destruct w as [a d i e]. cbn in Hf.
    destruct d as [| | node]; cbn in Hf; try discriminate. subst node.
    cbn. repeat split; [exists 0%nat; reflexivity |].
    exists [StoreExists; StoreUnlink]. split; [| repeat constructor].
    cbn. rewrite <- app_assoc. reflexivity.
Qed.

Lemma remove_api_key_raises (w w' : World) (e : Exn) :
  remove_api_key w = Raise e w' -> e = IsADirectoryError.
Proof.
  destruct (config_file_of (config_dir w)) as [| data |] eqn:Hf.
  - rewrite remove_api_key_missing by assumption. discriminate.
  - rewrite (remove_api_key_present w data) by assumption. discriminate.
  - destruct w as [a d i ev]. cbn in Hf.
    destruct d as [| | node]; cbn in Hf; try discriminate. subst node.
    cbn. intros H. injection H as <- _. reflexivity.
Qed.

Section RunProperties.

Set Default Proof Using "Type".

Variable float_truth : pystr -> bool.
Variable unicode_lower : pystr -> pystr.
Variable remote : nat -> value -> Request -> Outcome.

(** [main] with the flag [--save-key], by cases on what the operator
    answers. *)
Lemma main_save_key (depth : nat) (w : World) (prog arg : pystr) (rest : list pystr) :
  argv w = prog :: arg :: rest ->
  lower unicode_lower arg = lit "--save-key" ->
  let w0 := record (Output (lit "Enter your Anthropic API key:")) w in
  main float_truth unicode_lower remote (S depth) w
  = match stdin w with
    | [] => Raise EOFError (record (Input key_prompt) w0)
    | line :: _ =>
        if nonempty (strip line) then
          save_api_key (strip line) (consume key_prompt w0)
        else
          Ret tt (record (Output (lit "No API key entered."))
                    (consume key_prompt w0))
    end.
Proof.
  intros Hargv Harg. cbv zeta.
  rewrite (main_dispatch float_truth unicode_lower remote depth w prog arg rest Hargv).
  cbv zeta. rewrite Harg.
  change (str_eqb (lit "--save-key") (lit "--help")
          || str_eqb (lit "--save-key") (lit "-h")) with false.
  change (str_eqb (lit "--save-key") (lit "--save-key")) with true.
  cbn iota.
  unfold bind at 1. unfold print at 1. cbn beta iota.
  unfold bind at 1.
  pose proof (input_cases (lit "API Key: ")
                (record (Output (lit "Enter your Anthropic API key:")) w)) as Hin.
  cbn [record stdin] in Hin.
  destruct (stdin w) as [| line lines]; rewrite Hin; [reflexivity |].
  cbn beta iota zeta. destruct (nonempty (strip line)); reflexivity.
Qed.

Lemma main_reset_key (depth : nat) (w : World) (prog arg : pystr) (rest : list pystr) :
  argv w = prog :: arg :: rest ->
  lower unicode_lower arg = lit "--reset-key" ->
  main float_truth unicode_lower remote (S depth) w = remove_api_key w.
Proof.
  intros Hargv Harg.
  rewrite (main_dispatch float_truth unicode_lower remote depth w prog arg rest Hargv).
  cbv zeta. rewrite Harg. reflexivity.
Qed.

Lemma main_help (depth : nat) (w : World) (prog arg : pystr) (rest : list pystr) :
  argv w = prog :: arg :: rest ->
  lower unicode_lower arg = lit "--help" \/ lower unicode_lower arg = lit "-h" ->
  main float_truth unicode_lower remote (S depth) w
  = Ret tt (record (Output help_text) w).
Proof.
  intros Hargv Harg.
  rewrite (main_dispatch float_truth unicode_lower remote depth w prog arg rest Hargv).
  cbv zeta. destruct Harg as [-> | ->]; reflexivity.
Qed.

Lemma main_unknown (depth : nat) (w : World) (prog arg : pystr) (rest : list pystr) :
  argv w = prog :: arg :: rest ->
  str_eqb (lower unicode_lower arg) (lit "--help")
  || str_eqb (lower unicode_lower arg) (lit "-h") = false ->
  str_eqb (lower unicode_lower arg) (lit "--save-key") = false ->
  str_eqb (lower unicode_lower arg) (lit "--reset-key") = false ->
  main float_truth unicode_lower remote (S depth) w
  = if encodable (lower unicode_lower arg) then
      Ret tt (record (Output (lit "Use --help to see available options."))
                (record (Output (lit "Unknown argument: " ++ lower unicode_lower arg)) w))
    else Raise UnicodeEncodeError w.
Proof.
  intros Hargv H1 H2 H3.
  rewrite (main_dispatch float_truth unicode_lower remote depth w prog arg rest Hargv).
  cbv zeta. rewrite H1, H2, H3. cbn [orb]. unfold bind.
  rewrite print_argument_unknown.
  destruct (encodable (lower unicode_lower arg)); reflexivity.
Qed.

(** A run with an argument: no request, and the only exceptions are those
    of the end of input, of the store and of the encoder of standard
    output. *)
Lemma main_argument_run (depth : nat) (w : World) :
  (1 < List.length (argv w))%nat ->
  advances (fun e => is_call e = false) w
    (final_world (main float_truth unicode_lower remote (S depth) w))
  /\ (forall e w',
        main float_truth unicode_lower remote (S depth) w = Raise e w' ->
        e = EOFError \/ e = FileExistsError \/ e = IsADirectoryError
        \/ e = UnicodeEncodeError).
Proof.
  intros Hlen.
  destruct (argv w) as [| prog [| arg rest]] eqn:Hargv;
    try (cbn [List.length] in Hlen; lia).
  destruct (str_eqb (lower unicode_lower arg) (lit "--help")
            || str_eqb (lower unicode_lower arg) (lit "-h")) eqn:Hhelp.
  { rewrite (main_help depth w prog arg rest Hargv)
      by (apply orb_true_iff in Hhelp as [H | H]; apply str_eqb_eq in H; auto).
    split; [apply advances_record; reflexivity | discriminate]. }
  destruct (str_eqb (lower unicode_lower arg) (lit "--save-key")) eqn:Hsave.
  { apply str_eqb_eq in Hsave.
    rewrite (main_save_key depth w prog arg rest Hargv Hsave). cbv zeta.
    assert (advances (fun e => is_call e = false) w
              (record (Output (lit "Enter your Anthropic API key:")) w)) as H0
      by (apply advances_record; reflexivity).
    destruct (stdin w) as [| line lines].
    - split.
      + cbn [final_world]. eapply advances_trans; [exact H0 |].
        apply advances_record. reflexivity.
      + intros e w' H. injection H as <- _. auto.
    - assert (advances (fun e => is_call e = false) w
                (consume key_prompt
                   (record (Output (lit "Enter your Anthropic API key:")) w))) as H1
        by (eapply advances_trans; [exact H0 |]; apply advances_consume; reflexivity).
      destruct (nonempty (strip line)).
      + split.
        * eapply advances_trans; [exact H1 |]. apply save_api_key_advances.
        * intros e w' H. apply save_api_key_raises in H. destruct H; auto.
      + split; [| discriminate].
        cbn [final_world]. eapply advances_trans; [exact H1 |].
        apply advances_record. reflexivity. }
  destruct (str_eqb (lower unicode_lower arg) (lit "--reset-key")) eqn:Hreset.
  { apply str_eqb_eq in Hreset.
    rewrite (main_reset_key depth w prog arg rest Hargv Hreset).
    split; [apply remove_api_key_advances |].
    intros e w' H. apply remove_api_key_raises in H. auto. }
  rewrite (main_unknown depth w prog arg rest Hargv Hhelp Hsave Hreset).
  destruct (encodable (lower unicode_lower arg)).
  - split; [| discriminate].
    cbn [final_world]. eapply advances_trans; apply advances_record; reflexivity.
  - split; [apply advances_refl |].
    intros e w' H. injection H as <- _. auto.
Qed.

(** The run of [main], whatever the depth: requests are well formed, the
    only exit code is 1, and the depth is not exhausted when it exceeds the
    number of lines of input. *)
Lemma main_run (depth : nat) :
  forall w,
    advances (call_ok float_truth) w
      (final_world (main float_truth unicode_lower remote depth w))
    /\ (forall e w',
          main float_truth unicode_lower remote depth w = Raise e w' ->
          e = SystemExit 1 \/ e = EOFError \/ e = FileExistsError
          \/ e = IsADirectoryError \/ e = UnicodeEncodeError
          \/ e = RecursionError)
    /\ ((List.length (stdin w) < depth)%nat ->
        forall w',
          main float_truth unicode_lower remote depth w <> Raise RecursionError w').
Proof.
  assert (forall e, is_call e = false -> call_ok float_truth e) as Hweak
    by (intros [] H; try exact I; discriminate H).
  assert (forall s, call_ok float_truth (Output s)) as Hout by (intros; exact I).
  assert (forall s, call_ok float_truth (Input s)) as Hinp by (intros; exact I).
  induction depth as [| depth IH]; intros w.
  { cbn [main]. unfold raise. cbn [final_world].
    split; [apply advances_refl |]. split; [| lia].
    intros e w' H. injection H as <- _. auto 8. }
  destruct (Nat.ltb_spec 1 (List.length (argv w))) as [Hargs | Hargs].
  { destruct (main_argument_run depth w Hargs) as [Hadv Hexn].
    split; [eapply advances_weaken; [exact Hweak | exact Hadv] |].
    split.
    - intros e w' H. apply Hexn in H.
      destruct H as [-> | [-> | [-> | ->]]]; auto 8.
    - intros _ w' H. apply Hexn in H.
      destruct H as [H | [H | [H | H]]]; discriminate. }
  rewrite (main_interactive float_truth unicode_lower remote depth w Hargs).
  pose proof (get_api_key_advances float_truth w) as Hg.
  apply (advances_weaken _ _ _ _ Hweak) in Hg.
  pose proof (get_api_key_raises float_truth w) as Hgr.
  destruct (get_api_key float_truth w) as [api_key w1 | e w1];
    cbn [final_world] in Hg.
  2: { split; [exact Hg |]. split.
       - intros e' w' H. injection H as <- _.
         destruct (Hgr _ _ eq_refl) as [-> | [-> | ->]]; auto 8.
       - intros _ w' H. injection H as -> _.
         destruct (Hgr _ _ eq_refl) as [H | [H | H]]; discriminate. }
  clear Hgr.
  pose proof (advances_stdin_length _ _ _ Hg) as Hlen1.
  destruct (truthy float_truth api_key) eqn:Hkey.
  2: { split; [| split; [| discriminate]].
       - cbn [final_world]. eapply advances_trans; [exact Hg |].
         apply advances_record. apply Hout.
       - intros e w' H. injection H as <- _. auto. }
  assert (advances (call_ok float_truth) w (banner w1)) as Hb
    by (eapply advances_trans; [exact Hg | apply advances_banner; exact Hout]).
  destruct (stdin w1) as [| line1 [| line2 rest2]] eqn:Hs1.
  { split; [| split; [| discriminate]].
    - cbn [final_world]. eapply advances_trans; [exact Hb |].
      apply advances_record. apply Hinp.
    - intros e w' H. injection H as <- _. auto. }
  { split; [| split; [| discriminate]].
    - cbn [final_world]. eapply advances_trans; [exact Hb |].
      eapply advances_trans; [apply advances_consume; apply Hinp |].
      apply advances_record. apply Hinp.
    - intros e w' H. injection H as <- _. auto. }
  cbv zeta.
  assert (advances (call_ok float_truth) w
            (consume location_prompt (consume keywords_prompt (banner w1)))) as H4.
  { eapply advances_trans; [exact Hb |].
    eapply advances_trans; apply advances_consume; apply Hinp. }
  assert (stdin (consume location_prompt (consume keywords_prompt (banner w1))) = rest2)
    as Hs4 by (cbn; rewrite Hs1; reflexivity).
  destruct (nonempty (strip line1)) eqn:Hn1; cbn [andb].
  2: { split; [| split; [| discriminate]].
       - cbn [final_world]. eapply advances_trans; [exact H4 |].
         apply advances_record. apply Hout.
       - intros e w' H. injection H as <- _. auto. }
  destruct (nonempty (strip line2)) eqn:Hn2.
  2: { split; [| split; [| discriminate]].
       - cbn [final_world]. eapply advances_trans; [exact H4 |].
         apply advances_record. apply Hout.
       - intros e w' H. injection H as <- _. auto. }
  apply nonempty_true in Hn1, Hn2.
  destruct (search_jobs_advances remote (strip line1) (strip line2) api_key
              (consume location_prompt (consume keywords_prompt (banner w1)))
              (call_ok float_truth) Hout) as [H5 Hs5].
  { split; [exact Hkey |]. exists line1, line2. repeat split; assumption. }
  destruct (search_jobs_effects remote (strip line1) (strip line2) api_key
              (consume location_prompt (consume keywords_prompt (banner w1))))
    as (_ & _ & _ & _ & _ & _ & Hsr).
  destruct (search_jobs remote (strip line1) (strip line2) api_key _)
    as [[] w5 | e w5]; cbn [final_world] in H5, Hs5.
  2: { split; [eapply advances_trans; eassumption |].
       split.
       - intros e' w' H. injection H as <- _. left. apply (Hsr _ _ eq_refl).
       - intros _ w' H. injection H as -> _. specialize (Hsr _ _ eq_refl).
         discriminate. }
  clear Hsr.
  assert (advances (call_ok float_truth) w (record (Output ([10] ++ separator)) w5))
    as H6.
  { eapply advances_trans; [exact H4 |]. eapply advances_trans; [exact H5 |].
    apply advances_record. apply Hout. }
  rewrite Hs4 in Hs5.
  destruct (stdin w5) as [| line3 rest3] eqn:Hs5'.
  { split; [| split; [| discriminate]].
    - cbn [final_world]. eapply advances_trans; [exact H6 |].
      apply advances_record. apply Hinp.
    - intros e w' H. injection H as <- _. auto. }
  assert (advances (call_ok float_truth) w
            (consume again_prompt (record (Output ([10] ++ separator)) w5))) as H7
    by (eapply advances_trans; [exact H6 | apply advances_consume; apply Hinp]).
  destruct (str_eqb (lower unicode_lower (strip line3)) (lit "y")).
  - destruct (IH (consume again_prompt (record (Output ([10] ++ separator)) w5)))
      as (Ha & He & Hr).
    split; [eapply advances_trans; eassumption |].
    split; [exact He |].
    intros Hd. apply Hr. cbn [consume record stdin]. rewrite Hs5'. cbn [tl].
    subst rest2. rewrite <- Hs5 in Hlen1. cbn [List.length] in Hlen1. lia.
  - split; [| split; discriminate].
    cbn [final_world]. eapply advances_trans; [exact H7 |].
    apply advances_record. apply Hout.
Qed.

End RunProperties.

(* ================================================================== *)
(** ** Sessions *)

Section SessionProperties.

Set Default Proof Using "Type".

Variable float_truth : pystr -> bool.
Variable unicode_lower : pystr -> pystr.
Variable remote : nat -> value -> Request -> Outcome.

(** X7: once a non-empty secret is saved, [get_api_key] returns it from the
    store without asking: no prompt, no input read, store untouched. *)
Theorem save_then_get_api_key (secret : pystr) (w w1 : World) :
  well_formed secret -> secret <> [] ->
  save_api_key secret w = Ret tt w1 ->
  exists w2,
    get_api_key float_truth w1 = Ret (PyStr (join_surrogates secret)) w2
    /\ stdin w2 = stdin w1
    /\ config_dir w2 = config_dir w1
    /\ events w2 = events w1 ++ [StoreExists; StoreRead].
Proof.
  intros Hwf Hne Hsave.
  pose proof (save_then_load secret w w1 Hwf Hsave) as Hload.
  rewrite (get_api_key_cases float_truth w1 _ _ Hload). cbv zeta.
  cbn [truthy]. apply join_surrogates_nonempty in Hne. apply nonempty_true in Hne.
  rewrite Hne. eexists. split; [reflexivity |].
  cbn. rewrite <- app_assoc. repeat split.
Qed.

(** X8: when no key is stored and the input is at its end, [get_api_key]
    prints its two notices, asks, and fails with [EOFError]; the store is
    left as it was. *)
Theorem get_api_key_end_of_input (w w1 : World) (v : value) :
  load_api_key w = Ret v w1 -> truthy float_truth v = false ->
  stdin w = [] ->
  exists w',
    get_api_key float_truth w = Raise EOFError w'
    /\ config_dir w' = config_dir w
    /\ events w'
       = events w1 ++ [Output no_key_notice; Output console_notice; Input key_prompt].
Proof.
  intros Hload Hf Hin.
  destruct (load_api_key_returns w) as (v' & w' & evs & Hl & Hd & Hi & _).
  rewrite Hload in Hl. injection Hl as <- <-.
  rewrite (get_api_key_cases float_truth w w1 v Hload). cbv zeta.
  rewrite Hf, Hi, Hin. eexists. split; [reflexivity |].
  cbn. repeat rewrite <- app_assoc. split; [assumption | reflexivity].
Qed.

(** X9: every request that a run of [main] sends carries a key that counts
    as true and is the request [search_jobs] builds from two stripped,
    non-empty search terms; a run never changes its arguments and only
    consumes input. *)
Theorem main_requests_well_formed (depth : nat) (w : World) :
  exists evs,
    events (final_world (main float_truth unicode_lower remote depth w))
    = events w ++ evs
    /\ (forall api_key req,
          In (RemoteCall api_key req) evs ->
          truthy float_truth api_key = true
          /\ exists line1 line2,
               req = search_request (strip line1) (strip line2)
               /\ strip line1 <> [] /\ strip line2 <> [])
    /\ argv (final_world (main float_truth unicode_lower remote depth w)) = argv w
    /\ exists k,
         stdin (final_world (main float_truth unicode_lower remote depth w))
         = skipn k (stdin w).
Proof.
  destruct (main_run float_truth unicode_lower remote depth w)
    as ((Ha & Hk & evs & He & Hp) & _).
  exists evs. split; [exact He |]. split; [| split; assumption].
  intros api_key req Hin. rewrite Forall_forall in Hp.
  exact (Hp _ Hin).
Qed.

(** X10: the exit status of a run of [main] is 0 or 1, and it is 0 exactly
    when [main] returns: the only code ever passed to [sys.exit] is 1. *)
Theorem main_exit_status (depth : nat) (w : World) :
  (exit_status (main float_truth unicode_lower remote depth w) = 0
   \/ exit_status (main float_truth unicode_lower remote depth w) = 1)
  /\ (exit_status (main float_truth unicode_lower remote depth w) = 0
      <-> exists w', main float_truth unicode_lower remote depth w = Ret tt w').
Proof.
  destruct (main_run float_truth unicode_lower remote depth w) as (_ & He & _).
  destruct (main float_truth unicode_lower remote depth w) as [[] w' | e w'].
  - split; [left; reflexivity |]. split; [eexists; reflexivity | reflexivity].
  - destruct (He e w' eq_refl) as [-> | [-> | [-> | [-> | [-> | ->]]]]];
      (split; [right; reflexivity |]);
      (split; [discriminate | intros [w'' H]; discriminate H]).
Qed.

Lemma main_depth_step (depth : nat) :
  forall w,
    (forall w', main float_truth unicode_lower remote depth w
                <> Raise RecursionError w') ->
    main float_truth unicode_lower remote (S depth) w
    = main float_truth unicode_lower remote depth w.
Proof.
  induction depth as [| depth IH]; intros w Hno.
  { exfalso. apply (Hno w). reflexivity. }
  destruct (Nat.ltb_spec 1 (List.length (argv w))) as [Hargs | Hargs].
  { destruct (argv w) as [| prog [| arg rest]] eqn:Hargv;
      try (cbn [List.length] in Hargs; lia).
    rewrite !(main_dispatch float_truth unicode_lower remote _ w prog arg rest Hargv).
    reflexivity. }
  rewrite (main_interactive float_truth unicode_lower remote (S depth) w Hargs).
  rewrite (main_interactive float_truth unicode_lower remote depth w Hargs) in Hno |- *.
  destruct (get_api_key float_truth w) as [api_key w1 | e w1]; [| reflexivity].
  destruct (truthy float_truth api_key); [| reflexivity].
  destruct (stdin w1) as [| line1 [| line2 rest2]]; try reflexivity.
  cbv zeta in Hno |- *.
  destruct (nonempty (strip line1) && nonempty (strip line2)); [| reflexivity].
  destruct (search_jobs remote (strip line1) (strip line2) api_key _)
    as [[] w5 | e w5]; [| reflexivity].
  destruct (stdin w5) as [| line3 rest3]; [reflexivity |].
  destruct (str_eqb (lower unicode_lower (strip line3)) (lit "y")); [| reflexivity].
  apply IH. exact Hno.
Qed.

(** The depth of the model and the input: a depth above the number of
    lines left on standard input is never exhausted, and a larger depth
    gives the same run. *)
Lemma main_depth_suffices (depth more : nat) (w : World) :
  (List.length (stdin w) < depth)%nat ->
  (forall w', main float_truth unicode_lower remote depth w
              <> Raise RecursionError w')
  /\ main float_truth unicode_lower remote (more + depth) w
     = main float_truth unicode_lower remote depth w.
Proof.
  intros Hd.
  destruct (main_run float_truth unicode_lower remote depth w) as (_ & _ & Hr).
  split; [exact (Hr Hd) |].
  induction more as [| more IH]; [reflexivity |].
  cbn [Nat.add]. rewrite main_depth_step; [exact IH |].
  rewrite IH. exact (Hr Hd).
Qed.

(** X12: with an argument, [main] never sends a request and never calls
    [sys.exit]: whatever the argument and the state of the store and of the
    input, no request is among the things the run does, and a run that does
    not return is ended by an exception other than [SystemExit]. *)
Theorem main_argument_no_search (depth : nat) (w : World) :
  (1 < List.length (argv w))%nat ->
  (exists evs,
     events (final_world (main float_truth unicode_lower remote (S depth) w))
     = events w ++ evs
     /\ forallb (fun e => negb (is_call e)) evs = true)
  /\ (forall e w' code,
        main float_truth unicode_lower remote (S depth) w = Raise e w' ->
        e <> SystemExit code).
Proof.
  intros Hargs.
  destruct (main_argument_run float_truth unicode_lower remote depth w Hargs)
    as ((_ & _ & evs & He & Hp) & Hexn).
  split.
  - exists evs. split; [exact He |].
    apply forallb_forall. intros e Hin. rewrite Forall_forall in Hp.
    rewrite (Hp e Hin). reflexivity.
  - intros e w' code H.
    destruct (Hexn e w' H) as [-> | [-> | [-> | ->]]]; discriminate.
Qed.

End SessionProperties.

(* ================================================================== *)
(** ** The flags and the interactive flow *)

Section CommandLineProperties.

Set Default Proof Using "Type".

Variable float_truth : pystr -> bool.
Variable unicode_lower : pystr -> pystr.
Variable remote : nat -> value -> Request -> Outcome.

(** X13: [--help] and [-h], in any casing, print the usage text and nothing
    else; the store and the input are not touched and the process ends with
    status 0.  The usage text names [--save-key], [--reset-key] and
    [--help]. *)
Theorem main_help_prints_usage (depth : nat) (w : World) (prog arg : pystr)
    (rest : list pystr) :
  argv w = prog :: arg :: rest ->
  lower unicode_lower arg = lit "--help" \/ lower unicode_lower arg = lit "-h" ->
  exists w',
    main float_truth unicode_lower remote (S depth) w = Ret tt w'
    /\ exit_status (main float_truth unicode_lower remote (S depth) w) = 0
    /\ events w' = events w ++ [Output help_text]
    /\ config_dir w' = config_dir w
    /\ stdin w' = stdin w
    /\ substring (lit "--save-key") help_text
    /\ substring (lit "--reset-key") help_text
    /\ substring (lit "--help") help_text.
Proof.
  intros Hargv Harg.
  rewrite (main_help float_truth unicode_lower remote depth w prog arg rest Hargv Harg).
  eexists. split; [reflexivity |]. repeat split.
  - exists (firstn 115 help_text), (skipn 125 help_text). vm_compute. reflexivity.
  - exists (firstn 177 help_text), (skipn 188 help_text). vm_compute. reflexivity.
  - exists (firstn 222 help_text), (skipn 228 help_text). vm_compute. reflexivity.
Qed.

(** X14: [--save-key] asks for a key.  A non-empty answer (after [strip])
    replaces whatever was stored, and [load_api_key] then returns it; an
    answer that is empty after [strip] is reported and leaves the store as
    it was; at the end of input the run fails with [EOFError] and the store
    is left as it was. *)
Theorem main_save_key_stores (depth : nat) (w : World) (prog arg : pystr)
    (rest : list pystr) :
  argv w = prog :: arg :: rest ->
  lower unicode_lower arg = lit "--save-key" ->
  (forall line lines,
     stdin w = line :: lines -> strip line <> [] ->
     well_formed line -> store_writable (config_dir w) = true ->
     exists w' w'',
       main float_truth unicode_lower remote (S depth) w = Ret tt w'
       /\ config_dir w' = stored (dumps [(lit "api_key", strip line)])
       /\ stdin w' = lines
       /\ load_api_key w' = Ret (PyStr (join_surrogates (strip line))) w'')
  /\ (forall line lines,
        stdin w = line :: lines -> strip line = [] ->
        exists w',
          main float_truth unicode_lower remote (S depth) w = Ret tt w'
          /\ config_dir w' = config_dir w
          /\ stdin w' = lines
          /\ events w'
             = events w ++ [Output (lit "Enter your Anthropic API key:");
                            Input key_prompt;
                            Output (lit "No API key entered.")])
  /\ (stdin w = [] ->
      exists w',
        main float_truth unicode_lower remote (S depth) w = Raise EOFError w'
        /\ config_dir w' = config_dir w).
Proof.
  intros Hargv Harg.
  rewrite (main_save_key float_truth unicode_lower remote depth w prog arg rest
             Hargv Harg).
  cbv zeta. split; [| split].
  - intros line lines Hin Hne Hwf Hw. rewrite Hin.
    apply nonempty_true in Hne. rewrite Hne.
    rewrite save_api_key_writable by exact Hw.
    eexists _, _. split; [reflexivity |]. split; [reflexivity |].
    split; [cbn; rewrite Hin; reflexivity |].
    rewrite (load_api_key_text _ (dumps [(lit "api_key", strip line)]))
      by reflexivity.
    rewrite loads_dumps_api_key by (apply strip_well_formed; exact Hwf).
    reflexivity.
  - intros line lines Hin Hempty. rewrite Hin, Hempty. cbn [nonempty].
    eexists. split; [reflexivity |]. split; [reflexivity |].
    split; [cbn; rewrite Hin; reflexivity |].
    cbn. repeat rewrite <- app_assoc. reflexivity.
  - intros Hin. rewrite Hin. eexists. split; reflexivity.
Qed.

(** X15: [--reset-key] leaves no key behind: unless the path of the file is
    taken by a directory, the run ends with status 0, reads no input, and
    [load_api_key] afterwards returns [None], whether or not a key was
    stored. *)
Theorem main_reset_key_clears (depth : nat) (w : World) (prog arg : pystr)
    (rest : list pystr) :
  argv w = prog :: arg :: rest ->
  lower unicode_lower arg = lit "--reset-key" ->
  config_file_of (config_dir w) <> Directory ->
  exists w' w'',
    main float_truth unicode_lower remote (S depth) w = Ret tt w'
    /\ exit_status (main float_truth unicode_lower remote (S depth) w) = 0
    /\ stdin w' = stdin w
    /\ config_file_of (config_dir w') = Missing
    /\ load_api_key w' = Ret PyNone w''.
Proof.
  intros Hargv Harg Hdir.
  rewrite (main_reset_key float_truth unicode_lower remote depth w prog arg rest
             Hargv Harg).
  destruct (config_file_of (config_dir w)) as [| data |] eqn:Hf;
    [| | contradiction].
  - rewrite (remove_api_key_missing w Hf).
    eexists _, _. split; [reflexivity |]. split; [reflexivity |].
    split; [reflexivity |]. split; [exact Hf |].
    apply load_api_key_missing. exact Hf.
  - rewrite (remove_api_key_present w data Hf).
    eexists _, _. split; [reflexivity |]. split; [reflexivity |].
    split; [reflexivity |]. split; [reflexivity |].
    apply load_api_key_missing. reflexivity.
Qed.

Ltac run_flag :=
  unfold observe, save_api_key, remove_api_key, print_help, ensure_config_dir,
    json_dump, bind, print, input, CONFIG_DIR_mkdir, CONFIG_FILE_write,
    CONFIG_FILE_exists, CONFIG_FILE_unlink, record, set_config_dir, with_argv,
    final_world;
  cbn [argv config_dir stdin events].

(** X16: [main] looks at its first argument only: the name of the program
    and any further arguments do not change the run. *)
Theorem main_first_argument_only (depth : nat) (w : World) (arg : pystr)
    (prog prog' : pystr) (rest rest' : list pystr) :
  observe (main float_truth unicode_lower remote (S depth)
             (with_argv (prog :: arg :: rest) w))
  = observe (main float_truth unicode_lower remote (S depth)
               (with_argv (prog' :: arg :: rest') w)).
Proof.
  rewrite (main_dispatch float_truth unicode_lower remote depth _ prog arg rest)
    by reflexivity.
  rewrite (main_dispatch float_truth unicode_lower remote depth _ prog' arg rest')
    by reflexivity.
  cbv zeta. destruct w as [args d lines evs].
  destruct (str_eqb (lower unicode_lower arg) (lit "--help")
            || str_eqb (lower unicode_lower arg) (lit "-h")).
  { run_flag. reflexivity. }
  destruct (str_eqb (lower unicode_lower arg) (lit "--save-key")).
  { run_flag. destruct lines as [| line lines]; [reflexivity |].
    cbn beta iota zeta. destruct (nonempty (strip line)); [| reflexivity].
    destruct d as [| | [| data |]]; reflexivity. }
  destruct (str_eqb (lower unicode_lower arg) (lit "--reset-key")).
  { run_flag. destruct d as [| | [| data |]]; reflexivity. }
  run_flag. rewrite !print_argument_unknown.
  destruct (encodable (lower unicode_lower arg)); reflexivity.
Qed.

(** X17: without a usable key the interactive flow stops before it asks
    for search terms: when nothing that counts as true is stored and the
    operator's answer is empty after [strip], [main] prints that a key is
    required and exits with status 1; nothing is saved and no request is
    sent. *)
Theorem main_requires_key (depth : nat) (w w1 : World) (v : value)
    (line : pystr) (lines : list pystr) :
  (List.length (argv w) <= 1)%nat ->
  load_api_key w = Ret v w1 -> truthy float_truth v = false ->
  stdin w = line :: lines -> strip line = [] ->
  exists w',
    main float_truth unicode_lower remote (S depth) w = Raise (SystemExit 1) w'
    /\ exit_status (main float_truth unicode_lower remote (S depth) w) = 1
    /\ config_dir w' = config_dir w
    /\ stdin w' = lines
    /\ events w'
       = events w1 ++ [Output no_key_notice; Output console_notice;
                       Input key_prompt; Output key_required_notice].
Proof.
  intros Hargs Hload Hf Hin Hempty.
  destruct (load_api_key_returns w) as (v' & w' & evs & Hl & Hd & Hi & _).
  rewrite Hload in Hl. injection Hl as <- <-.
  rewrite (main_interactive float_truth unicode_lower remote depth w Hargs).
  rewrite (get_api_key_cases float_truth w w1 v Hload). cbv zeta.
  rewrite Hf, Hi, Hin, Hempty. cbn [nonempty truthy].
  eexists. split; [reflexivity |]. split; [reflexivity |].
  split; [exact Hd |]. split; [cbn; rewrite Hi, Hin; reflexivity |].
  cbn. repeat rewrite <- app_assoc. reflexivity.
Qed.

(** X18: both search terms are read before either is checked.  When one of
    them is empty after [strip], [main] has asked for both, prints that both
    are required and exits with status 1 without sending a request. *)
Theorem main_requires_search_terms (depth : nat) (w w1 : World) (api_key : value)
    (line1 line2 : pystr) (lines : list pystr) :
  (List.length (argv w) <= 1)%nat ->
  get_api_key float_truth w = Ret api_key w1 ->
  truthy float_truth api_key = true ->
  stdin w1 = line1 :: line2 :: lines ->
  strip line1 = [] \/ strip line2 = [] ->
  exists w',
    main float_truth unicode_lower remote (S depth) w = Raise (SystemExit 1) w'
    /\ exit_status (main float_truth unicode_lower remote (S depth) w) = 1
    /\ config_dir w' = config_dir w1
    /\ stdin w' = lines
    /\ events w'
       = events (banner w1)
         ++ [Input keywords_prompt; Input location_prompt;
             Output both_required_notice].
Proof.
  intros Hargs Hget Hkey Hin Hempty.
  rewrite (main_interactive float_truth unicode_lower remote depth w Hargs).
  rewrite Hget, Hkey, Hin. cbv zeta.
  replace (nonempty (strip line1) && nonempty (strip line2)) with false
    by (destruct Hempty as [-> | ->]; [reflexivity |];
        symmetry; apply andb_false_r).
  eexists. split; [reflexivity |]. split; [reflexivity |].
  split; [reflexivity |]. split; [cbn; rewrite Hin; reflexivity |].
  cbn. repeat rewrite <- app_assoc. reflexivity.
Qed.


End CommandLineProperties.

(* ================================================================== *)
(** ** Worked examples *)

Lemma save_then_load_roundtrip_witness :
  exists w1 w2,
    save_api_key (lit "sk-ant-api03-key")
      (world_of [lit "job_search.py"] DirMissing []) = Ret tt w1
    /\ load_api_key w1 = Ret (PyStr (lit "sk-ant-api03-key")) w2.
Proof.
  destruct (save_then_load_roundtrip (lit "sk-ant-api03-key")
              (world_of [lit "job_search.py"] DirMissing [])
              (lit_well_formed _) eq_refl) as [Hload Hsave].
  destruct (Hsave eq_refl) as [w1 H1].
  destruct (Hload w1 H1) as (w2 & H2 & _).
  exists w1, w2. split; assumption.
Defined.

Lemma load_api_key_no_field_witness :
  (exists w',
     load_api_key (world_of [lit "job_search.py"] (stored (lit "[1, 2]")) [])
     = Ret PyNone w')
  /\ (exists w',
        load_api_key
          (world_of [lit "job_search.py"]
             (stored (dumps [(lit "token", lit "sk-ant-api03-key")])) [])
        = Ret PyNone w').
Proof.
  split.
  - destruct (load_api_key_no_field
                (world_of [lit "job_search.py"] (stored (lit "[1, 2]")) [])
                (lit "[1, 2]") (PyList [PyInt 1; PyInt 2])) as (w' & H & _).
    + reflexivity.
    + vm_compute; reflexivity.
    + intros pairs H. discriminate H.
    + exists w'. exact H.
  - destruct (load_api_key_no_field
                (world_of [lit "job_search.py"]
                   (stored (dumps [(lit "token", lit "sk-ant-api03-key")])) [])
                (dumps [(lit "token", lit "sk-ant-api03-key")])
                (PyDict [(lit "token", PyStr (lit "sk-ant-api03-key"))]))
      as (w' & H & _).
    + reflexivity.
    + vm_compute; reflexivity.
    + intros pairs H. injection H as <-. vm_compute; reflexivity.
    + exists w'. exact H.
Defined.

Lemma remove_api_key_spec_witness :
  (exists w1 w2,
     remove_api_key
       (world_of [lit "job_search.py"; lit "--reset-key"]
          (stored (dumps [(lit "api_key", lit "sk-ant-api03-key")])) [])
     = Ret tt w1
     /\ config_dir w1 = DirPresent Missing
     /\ load_api_key w1 = Ret PyNone w2)
  /\ (exists w1,
        remove_api_key (world_of [lit "job_search.py"; lit "--reset-key"] DirMissing [])
        = Ret tt w1
        /\ config_dir w1 = DirMissing)
  /\ (exists w2,
        remove_api_key
          (final_world
             (remove_api_key
                (world_of [lit "job_search.py"; lit "--reset-key"] (stored []) [])))
        = Ret tt w2
        /\ config_dir w2 = DirPresent Missing).
Proof.
  split; [| split].
  - destruct (remove_api_key_spec
                (world_of [lit "job_search.py"; lit "--reset-key"]
                   (stored (dumps [(lit "api_key", lit "sk-ant-api03-key")])) []))
      as (H & _ & _).
    destruct (H (TextData (dumps [(lit "api_key", lit "sk-ant-api03-key")])) eq_refl)
      as (w1 & H1 & H2 & _ & w2 & H3).
    exists w1, w2. repeat split; assumption.
  - destruct (remove_api_key_spec
                (world_of [lit "job_search.py"; lit "--reset-key"] DirMissing []))
      as (_ & H & _).
    destruct (H eq_refl) as (w1 & H1 & H2 & _).
    exists w1. split; assumption.
  - destruct (remove_api_key_spec
                (world_of [lit "job_search.py"; lit "--reset-key"] (stored []) []))
      as (_ & _ & H).
    destruct (H (final_world
                   (remove_api_key
                      (world_of [lit "job_search.py"; lit "--reset-key"]
                         (stored []) []))) eq_refl)
      as (w2 & H1 & H2 & _).
    exists w2. split; assumption.
Defined.

Lemma get_api_key_spec_witness :
  (exists w1,
     get_api_key (fun _ => true)
       (world_of [lit "job_search.py"]
          (stored (dumps [(lit "api_key", lit "sk-ant-api03-key")])) [lit "unused"])
     = Ret (PyStr (lit "sk-ant-api03-key")) w1
     /\ stdin w1 = [lit "unused"])
  /\ (exists w2,
        get_api_key (fun _ => true)
          (world_of [lit "job_search.py"] DirMissing [lit "  sk-ant-api03-key "])
        = Ret (PyStr (lit "sk-ant-api03-key")) w2
        /\ config_dir w2 = stored (dumps [(lit "api_key", lit "sk-ant-api03-key")]))
  /\ (exists w2,
        get_api_key (fun _ => true)
          (world_of [lit "job_search.py"] DirMissing [lit "   "])
        = Ret (PyStr []) w2
        /\ config_dir w2 = DirMissing).
Proof.
  split; [| split].
  - destruct (get_api_key_spec (fun _ => true)
                (world_of [lit "job_search.py"]
                   (stored (dumps [(lit "api_key", lit "sk-ant-api03-key")]))
                   [lit "unused"])
                (final_world
                   (load_api_key
                      (world_of [lit "job_search.py"]
                         (stored (dumps [(lit "api_key", lit "sk-ant-api03-key")]))
                         [lit "unused"])))
                (PyStr (lit "sk-ant-api03-key")))
      as [H _]; [vm_compute; reflexivity |].
    destruct (H eq_refl) as (H1 & H2 & _).
    eexists. split; [exact H1 | vm_compute; reflexivity].
  - destruct (get_api_key_spec (fun _ => true)
                (world_of [lit "job_search.py"] DirMissing [lit "  sk-ant-api03-key "])
                (final_world
                   (load_api_key
                      (world_of [lit "job_search.py"] DirMissing
                         [lit "  sk-ant-api03-key "])))
                PyNone)
      as [_ H]; [vm_compute; reflexivity |].
    destruct (H eq_refl (lit "  sk-ant-api03-key ") [] eq_refl) as [Hsave _].
    destruct Hsave as (w2 & H1 & H2 & _); [vm_compute; discriminate | reflexivity |].
    exists w2. split; [exact H1 | exact H2].
  - destruct (get_api_key_spec (fun _ => true)
                (world_of [lit "job_search.py"] DirMissing [lit "   "])
                (final_world
                   (load_api_key (world_of [lit "job_search.py"] DirMissing [lit "   "])))
                PyNone)
      as [_ H]; [vm_compute; reflexivity |].
    destruct (H eq_refl (lit "   ") [] eq_refl) as [_ Hskip].
    destruct Hskip as (w2 & H1 & H2 & _); [vm_compute; reflexivity |].
    exists w2. split; [exact H1 | exact H2].
Defined.



Lemma main_unknown_argument_witness :
  exists w',
    main (fun _ => true) (fun s => s) (fun _ _ _ => Returns []) 1
      (world_of [lit "job_search.py"; lit "--Verbose"] DirMissing []) = Ret tt w'
    /\ events w'
       = [Output (lit "Unknown argument: --verbose");
          Output (lit "Use --help to see available options.")].
Proof.
  destruct (main_unknown_argument (fun _ => true) (fun s => s)
              (fun _ _ _ => Returns []) 0
              (world_of [lit "job_search.py"; lit "--Verbose"] DirMissing [])
              (lit "job_search.py") (lit "--Verbose") [] eq_refl)
    as (w' & H1 & _ & H2 & _);
    [vm_compute; discriminate | vm_compute; discriminate
    | vm_compute; discriminate | vm_compute; discriminate | reflexivity |].
  exists w'. split; [exact H1 | exact H2].
Defined.

Lemma main_flags_case_insensitive_witness :
  observe (main (fun _ => true) (fun s => s) (fun _ _ _ => Returns []) 1
             (with_argv [lit "job_search.py"; lit "--RESET-Key"]
                (world_of [] (stored []) [])))
  = observe (main (fun _ => true) (fun s => s) (fun _ _ _ => Returns []) 1
               (with_argv [lit "job_search.py"; lit "--reset-key"]
                  (world_of [] (stored []) []))).
Proof.
  destruct (main_flags_case_insensitive (fun _ => true) (fun s => s)
              (fun _ _ _ => Returns []) 0 (world_of [] (stored []) [])
              (lit "job_search.py") []) as (H & _).
  apply (H (lit "--RESET-Key") (lit "--reset-key")). vm_compute. reflexivity.
Defined.

(** A whole session: no key is stored, the operator enters one, searches,
    asks for another search, and the second request fails. *)
Example interactive_session :
  let run :=
    main (fun _ => true) (fun s => s)
      (fun n _ _ =>
         match n with
         | O => Returns [ServerToolUseBlock; TextBlock (lit "Job A details")]
         | S _ => RaisesException (lit "Connection error.")
         end)
      3
      (world_of [lit "job_search.py"] DirMissing
         [lit " sk-ant-api03-key"; lit "software engineer "; lit "Remote";
          lit " Y "; lit "data analyst"; lit "New York"]) in
  exit_status run = 1
  /\ config_dir (final_world run)
     = stored (dumps [(lit "api_key", lit "sk-ant-api03-key")])
  /\ stdin (final_world run) = []
  /\ count_calls (events (final_world run)) = 2%nat
  /\ last (events (final_world run)) StoreExists
     = Output ([10; 0x274C] ++ lit " Error: Connection error.").
Proof. vm_compute. repeat split. Qed.

(** C7 (as stated) fails on a store that holds the empty secret and on an
    answer with blanks.  After [save_api_key] of the empty string
    [load_api_key] returns that string, and [get_api_key] prompts all the
    same; the answer [" k "] is saved and returned as ["k"], not as it was
    entered; and the answer of three blanks, not empty as entered, is not
    saved at all. *)
Lemma get_api_key_empty_secret_blank_answer :
  (exists w w1 w2,
     save_api_key [] (world_of [lit "job_search.py"] DirMissing [lit " k "])
     = Ret tt w
     /\ load_api_key w = Ret (PyStr []) w1
     /\ get_api_key (fun _ => true) w = Ret (PyStr (lit "k")) w2
     /\ existsb is_input (events w2) = true
     /\ config_dir w2 = stored (dumps [(lit "api_key", lit "k")])
     /\ lit "k" <> lit " k ")
  /\ (exists w2,
        get_api_key (fun _ => true)
          (world_of [lit "job_search.py"] DirMissing [lit "   "])
        = Ret (PyStr []) w2
        /\ config_dir w2 = DirMissing
        /\ lit "   " <> []).
Proof.
  split.
  - exists (final_world
              (save_api_key []
                 (world_of [lit "job_search.py"] DirMissing [lit " k "]))).
    exists (final_world
              (load_api_key
                 (final_world
                    (save_api_key []
                       (world_of [lit "job_search.py"] DirMissing [lit " k "]))))).
    exists (final_world
              (get_api_key (fun _ => true)
                 (final_world
                    (save_api_key []
                       (world_of [lit "job_search.py"] DirMissing [lit " k "]))))).
    repeat (split; [vm_compute; reflexivity |]). discriminate.
  - exists (final_world
              (get_api_key (fun _ => true)
                 (world_of [lit "job_search.py"] DirMissing [lit "   "]))).
    repeat (split; [vm_compute; reflexivity |]). discriminate.
Qed.

(** C8 (as stated) fails at an argument that is not UTF-8: the byte 255
    reaches the program as the lone surrogate U+DCFF, which is none of the
    flags; [print] of the notice raises [UnicodeEncodeError], nothing
    is printed and the process ends with status 1. *)
Lemma main_unknown_argument_undecodable :
  let w := world_of [lit "job_search.py"; [0xDCFF]] DirMissing [] in
  main (fun _ => true) (fun s => s) (fun _ _ _ => Returns []) 1 w
  = Raise UnicodeEncodeError w
  /\ events w = []
  /\ exit_status
       (main (fun _ => true) (fun s => s) (fun _ _ _ => Returns []) 1 w) = 1.
Proof.
  cbv zeta. repeat split; vm_compute; reflexivity.
Qed.

(* ================================================================== *)
(** ** Further worked examples *)

Lemma save_api_key_fails_cleanly_witness :
  exists e w',
    save_api_key (lit "sk-ant-api03-key") (world_of [] (DirPresent Directory) [])
    = Raise e w'
    /\ config_dir w' = DirPresent Directory.
Proof.
  destruct (save_api_key_fails_cleanly (lit "sk-ant-api03-key")
              (world_of [] (DirPresent Directory) []) eq_refl)
    as (e & w' & H1 & _ & H2 & _).
  exists e, w'. split; [exact H1 | exact H2].
Defined.

Lemma save_api_key_overwrites_witness :
  exists w2 w3,
    save_api_key (lit "sk-ant-second")
      (final_world (save_api_key (lit "sk-ant-first") (world_of [] DirMissing [])))
    = Ret tt w2
    /\ load_api_key w2 = Ret (PyStr (lit "sk-ant-second")) w3.
Proof.
  destruct (save_api_key_overwrites (lit "sk-ant-first") (lit "sk-ant-second")
              (world_of [] DirMissing [])
              (final_world (save_api_key (lit "sk-ant-first")
                              (world_of [] DirMissing [])))
              (lit_well_formed _) eq_refl)
    as (w2 & w3 & H1 & _ & H2).
  exists w2, w3. split; [exact H1 | exact H2].
Defined.

Lemma saved_file_is_ascii_witness :
  exists text,
    config_dir (final_world (save_api_key [0x1F600; 10; 233]
                               (world_of [] DirMissing [])))
    = stored text
    /\ forallb printable_ascii text = true.
Proof.
  exact (saved_file_is_ascii [0x1F600; 10; 233] (world_of [] DirMissing [])
           (final_world (save_api_key [0x1F600; 10; 233] (world_of [] DirMissing [])))
           eq_refl).
Defined.

Lemma save_then_remove_witness :
  exists w2 w3,
    remove_api_key
      (final_world (save_api_key (lit "sk-ant-api03-key")
                      (world_of [] (stored (lit "[1]")) [])))
    = Ret tt w2
    /\ load_api_key w2 = Ret PyNone w3.
Proof.
  destruct (save_then_remove (lit "sk-ant-api03-key")
              (world_of [] (stored (lit "[1]")) [])
              (final_world (save_api_key (lit "sk-ant-api03-key")
                              (world_of [] (stored (lit "[1]")) [])))
              eq_refl)
    as (w2 & w3 & H1 & _ & H2).
  exists w2, w3. split; [exact H1 | exact H2].
Defined.


Lemma save_then_get_api_key_witness :
  exists w2,
    get_api_key (fun _ => true)
      (final_world (save_api_key (lit "sk-ant-api03-key")
                      (world_of [] DirMissing [lit "unused"])))
    = Ret (PyStr (lit "sk-ant-api03-key")) w2
    /\ stdin w2 = [lit "unused"].
Proof.
  destruct (save_then_get_api_key (fun _ => true) (lit "sk-ant-api03-key")
              (world_of [] DirMissing [lit "unused"])
              (final_world (save_api_key (lit "sk-ant-api03-key")
                              (world_of [] DirMissing [lit "unused"])))
              (lit_well_formed _))
    as (w2 & H1 & H2 & _); [discriminate | reflexivity |].
  exists w2. split; [exact H1 | exact H2].
Defined.

Lemma get_api_key_end_of_input_witness :
  exists w',
    get_api_key (fun _ => true) (world_of [lit "job_search.py"] DirMissing [])
    = Raise EOFError w'
    /\ config_dir w' = DirMissing.
Proof.
  destruct (get_api_key_end_of_input (fun _ => true)
              (world_of [lit "job_search.py"] DirMissing [])
              (final_world (load_api_key (world_of [lit "job_search.py"] DirMissing [])))
              PyNone eq_refl eq_refl eq_refl)
    as (w' & H1 & H2 & _).
  exists w'. split; [exact H1 | exact H2].
Defined.

Lemma main_requests_well_formed_witness :
  truthy (fun _ => true) (PyStr (lit "sk-ant-api03-key")) = true
  /\ exists line1 line2,
       search_request (lit "data analyst") (lit "New York")
       = search_request (strip line1) (strip line2)
       /\ strip line1 <> [] /\ strip line2 <> [].
Proof.
  destruct (main_requests_well_formed (fun _ => true) (fun s => s)
              (fun _ _ _ => RaisesException (lit "Connection error.")) 2
              (world_of [lit "job_search.py"]
                 (stored (dumps [(lit "api_key", lit "sk-ant-api03-key")]))
                 [lit " data analyst"; lit "New York "]))
    as (evs & He & Hcalls & _).
  apply Hcalls.
  apply (f_equal (skipn 0)) in He. cbn [skipn world_of events app] in He.
  rewrite <- He. vm_compute. do 9 right. left. reflexivity.
Defined.

Lemma main_exit_status_witness :
  exists w',
    main (fun _ => true) (fun s => s) (fun _ _ _ => Returns []) 1
      (world_of [lit "job_search.py"; lit "--frobnicate"] DirMissing [])
    = Ret tt w'.
Proof.
  destruct (main_exit_status (fun _ => true) (fun s => s) (fun _ _ _ => Returns []) 1
              (world_of [lit "job_search.py"; lit "--frobnicate"] DirMissing []))
    as [_ [H _]].
  apply H. vm_compute. reflexivity.
Defined.

Lemma main_help_prints_usage_witness :
  exists w',
    main (fun _ => true) (fun s => s) (fun _ _ _ => Returns []) 1
      (world_of [lit "job_search.py"; lit "-H"] DirMissing [lit "pending"])
    = Ret tt w'
    /\ events w' = [Output help_text]
    /\ stdin w' = [lit "pending"].
Proof.
  destruct (main_help_prints_usage (fun _ => true) (fun s => s)
              (fun _ _ _ => Returns []) 0
              (world_of [lit "job_search.py"; lit "-H"] DirMissing [lit "pending"])
              (lit "job_search.py") (lit "-H") [] eq_refl)
    as (w' & H1 & _ & H2 & _ & H3 & _); [right; reflexivity |].
  exists w'. split; [exact H1 |]. split; [exact H2 | exact H3].
Defined.

Lemma main_save_key_stores_witness :
  (exists w' w'',
     main (fun _ => true) (fun s => s) (fun _ _ _ => Returns []) 1
       (world_of [lit "job_search.py"; lit "--save-key"] (stored (lit "{}"))
          [lit "  sk-ant-api03-key "])
     = Ret tt w'
     /\ load_api_key w' = Ret (PyStr (lit "sk-ant-api03-key")) w'')
  /\ (exists w',
        main (fun _ => true) (fun s => s) (fun _ _ _ => Returns []) 1
          (world_of [lit "job_search.py"; lit "--save-key"] (stored (lit "{}"))
             [lit "   "])
        = Ret tt w'
        /\ config_dir w' = stored (lit "{}"))
  /\ (exists w',
        main (fun _ => true) (fun s => s) (fun _ _ _ => Returns []) 1
          (world_of [lit "job_search.py"; lit "--save-key"] (stored (lit "{}")) [])
        = Raise EOFError w').
Proof.
  split; [| split].
  - destruct (main_save_key_stores (fun _ => true) (fun s => s)
                (fun _ _ _ => Returns []) 0
                (world_of [lit "job_search.py"; lit "--save-key"] (stored (lit "{}"))
                   [lit "  sk-ant-api03-key "])
                (lit "job_search.py") (lit "--save-key") [] eq_refl eq_refl)
      as (H & _ & _).
    destruct (H (lit "  sk-ant-api03-key ") [] eq_refl)
      as (w' & w'' & H1 & _ & _ & H2);
      [vm_compute; discriminate | apply lit_well_formed | reflexivity |].
    exists w', w''. split; [exact H1 | exact H2].
  - destruct (main_save_key_stores (fun _ => true) (fun s => s)
                (fun _ _ _ => Returns []) 0
                (world_of [lit "job_search.py"; lit "--save-key"] (stored (lit "{}"))
                   [lit "   "])
                (lit "job_search.py") (lit "--save-key") [] eq_refl eq_refl)
      as (_ & H & _).
    destruct (H (lit "   ") [] eq_refl) as (w' & H1 & H2 & _);
      [vm_compute; reflexivity |].
    exists w'. split; [exact H1 | exact H2].
  - destruct (main_save_key_stores (fun _ => true) (fun s => s)
                (fun _ _ _ => Returns []) 0
                (world_of [lit "job_search.py"; lit "--save-key"] (stored (lit "{}")) [])
                (lit "job_search.py") (lit "--save-key") [] eq_refl eq_refl)
      as (_ & _ & H).
    destruct (H eq_refl) as (w' & H1 & _). exists w'. exact H1.
Defined.

Lemma main_reset_key_clears_witness :
  exists w' w'',
    main (fun _ => true) (fun s => s) (fun _ _ _ => Returns []) 1
      (world_of [lit "job_search.py"; lit "--Reset-Key"]
         (stored (dumps [(lit "api_key", lit "sk-ant-api03-key")])) [])
    = Ret tt w'
    /\ load_api_key w' = Ret PyNone w''.
Proof.
  destruct (main_reset_key_clears (fun _ => true) (fun s => s)
              (fun _ _ _ => Returns []) 0
              (world_of [lit "job_search.py"; lit "--Reset-Key"]
                 (stored (dumps [(lit "api_key", lit "sk-ant-api03-key")])) [])
              (lit "job_search.py") (lit "--Reset-Key") [] eq_refl eq_refl)
    as (w' & w'' & H1 & _ & _ & _ & H2); [discriminate |].
  exists w', w''. split; [exact H1 | exact H2].
Defined.

Lemma main_requires_key_witness :
  exists w',
    main (fun _ => true) (fun s => s) (fun _ _ _ => Returns []) 1
      (world_of [lit "job_search.py"] DirMissing [lit "  "; lit "nurse"])
    = Raise (SystemExit 1) w'
    /\ config_dir w' = DirMissing
    /\ stdin w' = [lit "nurse"].
Proof.
  destruct (main_requires_key (fun _ => true) (fun s => s)
              (fun _ _ _ => Returns []) 0
              (world_of [lit "job_search.py"] DirMissing [lit "  "; lit "nurse"])
              (final_world
                 (load_api_key
                    (world_of [lit "job_search.py"] DirMissing [lit "  "; lit "nurse"])))
              PyNone (lit "  ") [lit "nurse"])
    as (w' & H1 & _ & H2 & H3 & _);
    [cbn; lia | reflexivity | reflexivity | reflexivity | reflexivity |].
  exists w'. split; [exact H1 |]. split; [exact H2 | exact H3].
Defined.

Lemma main_requires_search_terms_witness :
  exists w',
    main (fun _ => true) (fun s => s) (fun _ _ _ => Returns []) 1
      (world_of [lit "job_search.py"]
         (stored (dumps [(lit "api_key", lit "sk-ant-api03-key")]))
         [lit " "; lit "Remote"])
    = Raise (SystemExit 1) w'
    /\ stdin w' = [].
Proof.
  destruct (main_requires_search_terms (fun _ => true) (fun s => s)
              (fun _ _ _ => Returns []) 0
              (world_of [lit "job_search.py"]
                 (stored (dumps [(lit "api_key", lit "sk-ant-api03-key")]))
                 [lit " "; lit "Remote"])
              (final_world
                 (get_api_key (fun _ => true)
                    (world_of [lit "job_search.py"]
                       (stored (dumps [(lit "api_key", lit "sk-ant-api03-key")]))
                       [lit " "; lit "Remote"])))
              (PyStr (lit "sk-ant-api03-key")) (lit " ") (lit "Remote") [])
    as (w' & H1 & _ & _ & H2 & _);
    [cbn; lia | vm_compute; reflexivity | reflexivity | vm_compute; reflexivity
    | left; vm_compute; reflexivity |].
  exists w'. split; [exact H1 | exact H2].
Defined.


Lemma main_argument_no_search_witness :
  exists evs,
    events
      (final_world
         (main (fun _ => true) (fun s => s) (fun _ _ _ => Returns []) 1
            (world_of [lit "job_search.py"; lit "--save-key"] DirMissing
               [lit "sk-ant-api03-key"])))
    = evs
    /\ forallb (fun e => negb (is_call e)) evs = true.
Proof.
  destruct (main_argument_no_search (fun _ => true) (fun s => s)
              (fun _ _ _ => Returns []) 0
              (world_of [lit "job_search.py"; lit "--save-key"] DirMissing
                 [lit "sk-ant-api03-key"])) as [(evs & He & Hp) _];
    [cbn; lia |].
  exists evs. split; [exact He | exact Hp].
Defined.
